(** * Verification of the MongoDB hash comparison script

    A shallow embedding of [mongodb_hash_compare.py]: the inventory collector
    ([run_db_hash], [collect_all_hashes]), the reconciliation
    ([prepare_comparison_data]), the summary and column sizing parts of
    [create_excel_report], and the exit status of [run_comparison] / [main].

    Python dictionaries are finite maps ([gmap]), Python sets are finite sets
    ([gset]), and [sorted] is a merge sort for the code point order on
    strings.  The first part is the model of the script, the second the
    vocabulary of the statements and the data of the examples, the third the
    proofs. *)

From Stdlib Require Import ZArith NArith String Ascii.
From stdpp Require Import gmap strings list fin_maps sorting pretty.

Open Scope string_scope.
Open Scope list_scope.
Open Scope nat_scope.

#[local] Set Warnings "-clear-no-such-hyp".

(** * Part I: the script *)

(** ** The order used by [sorted] on [str] values *)

Module StrOrder.

(** Python compares strings lexicographically by code point; a proper
    prefix is smaller.  This is [String.compare]. *)
Definition str_le (a b : string) : Prop := String.leb a b = true.

Definition str_lt (a b : string) : Prop := String.ltb a b = true.

Global Instance str_le_dec a b : Decision (str_le a b).
Proof. unfold str_le. apply _. Defined.

Global Instance str_lt_dec a b : Decision (str_lt a b).
Proof. unfold str_lt. apply _. Defined.

(** [sorted(xs)] for a collection of strings. *)
Definition sorted (l : list string) : list string := merge_sort str_le l.

End StrOrder.
Export StrOrder.

(** ** Data model *)

(** A value stored in a report cell: the script writes strings and
    integers. *)
Inductive Value :=
  | VStr (s : string)
  | VInt (z : Z).

(** The dictionary [hash_info] built by [run_db_hash].  Every key is
    optional, because [prepare_comparison_data] reads each of them with
    [dict.get] and a default; the empty dictionary has no key. *)
Record DbInfo := {
  database : option string;
  host : option string;
  collections : option (gmap string string);
  md5 : option string;
  timeMillis : option Z;
  timestamp : option string
}.

(** The literal [{}]. *)
Definition empty_dict : DbInfo :=
  {| database := None; host := None; collections := None;
     md5 := None; timeMillis := None; timestamp := None |}.

(** Truth value of a dictionary: [not d] holds for the empty one only. *)
Definition is_empty (d : DbInfo) : bool :=
  match database d, host d, collections d, md5 d, timeMillis d, timestamp d with
  | None, None, None, None, None, None => true
  | _, _, _, _, _, _ => false
  end.

(** [source_hashes] / [dest_hashes]: database name to [hash_info]. *)
Abbreviation Inventory := (gmap string DbInfo).

(** One dictionary of [comparison_data]. *)
Record Row := {
  Type_ : string;
  Database : string;
  Collection : string;
  Source_Hash : string;
  Destination_Hash : string;
  Match : string;
  Source_Host : string;
  Dest_Host : string;
  Source_Time_ms : Value;
  Dest_Time_ms : Value
}.

(** ** [prepare_comparison_data] *)

Section Reconciliation.

(** The order in which a Python [set] is iterated is not specified; the
    reconciliation is parameterised by it. *)
Variable iter : gset string → list string.

Definition db_row (db_name : string) (source_info dest_info : DbInfo) : Row :=
  {| Type_ := "Database";
     Database := db_name;
     Collection := "";
     Source_Hash := default "MISSING" (md5 source_info);
     Destination_Hash := default "MISSING" (md5 dest_info);
     Match := if is_empty source_info || is_empty dest_info then "MISSING DB"
              else if bool_decide (md5 source_info = md5 dest_info) then "MATCH"
              else "MISMATCH";
     Source_Host := default "N/A" (host source_info);
     Dest_Host := default "N/A" (host dest_info);
     Source_Time_ms := VInt (default 0%Z (timeMillis source_info));
     Dest_Time_ms := VInt (default 0%Z (timeMillis dest_info)) |}.

Definition coll_row (db_name : string) (source_info dest_info : DbInfo)
    (source_collections dest_collections : gmap string string)
    (coll_name : string) : Row :=
  let source_hash := default "MISSING" (source_collections !! coll_name) in
  let dest_hash := default "MISSING" (dest_collections !! coll_name) in
  {| Type_ := "Collection";
     Database := db_name;
     Collection := coll_name;
     Source_Hash := source_hash;
     Destination_Hash := dest_hash;
     Match := if bool_decide (source_hash = "MISSING")
                 || bool_decide (dest_hash = "MISSING")
              then "MISSING COLLECTION"
              else if bool_decide (source_hash = dest_hash) then "MATCH"
              else "MISMATCH";
     Source_Host := default "N/A" (host source_info);
     Dest_Host := default "N/A" (host dest_info);
     Source_Time_ms := VStr "";
     Dest_Time_ms := VStr "" |}.

(** The body of the outer loop: one database row is appended, then one
    row per collection name. *)
Definition db_step (source_hashes dest_hashes : Inventory)
    (comparison_data : list Row) (db_name : string) : list Row :=
  let source_info := default empty_dict (source_hashes !! db_name) in
  let dest_info := default empty_dict (dest_hashes !! db_name) in
  let comparison_data :=
    comparison_data ++ [db_row db_name source_info dest_info] in
  let source_collections := default ∅ (collections source_info) in
  let dest_collections := default ∅ (collections dest_info) in
  let all_collections := dom source_collections ∪ dom dest_collections in
  foldl (λ comparison_data coll_name,
           comparison_data ++
             [coll_row db_name source_info dest_info
                source_collections dest_collections coll_name])
        comparison_data (sorted (iter all_collections)).

Definition prepare_comparison_data_iter
    (source_hashes dest_hashes : Inventory) : list Row :=
  let comparison_data := [] in
  let all_databases := dom source_hashes ∪ dom dest_hashes in
  foldl (db_step source_hashes dest_hashes)
        comparison_data (sorted (iter all_databases)).

End Reconciliation.

(** The reconciliation, with the enumeration of [gset] standing for the
    iteration order of the interpreter. *)
Definition prepare_comparison_data : Inventory → Inventory → list Row :=
  prepare_comparison_data_iter elements.

(** ** The summary of [create_excel_report] *)

(** [pat in s] on strings. *)
Fixpoint contains (pat s : string) : bool :=
  String.prefix pat s
  || match s with
     | EmptyString => false
     | String _ s' => contains pat s'
     end.

Record Summary := {
  total_databases : nat;
  db_mismatches : nat;
  missing_dbs : nat;
  total_collections : nat;
  coll_mismatches : nat;
  missing_colls : nat;
  overall_status : string
}.

(** [len([row for row in comparison_data if row['Type'] == level and
    tag in row['Match']])]. *)
Definition count_tagged (level tag : string) (comparison_data : list Row)
    : nat :=
  length (filter (λ row, Type_ row = level ∧ contains tag (Match row) = true)
                 comparison_data).

Definition count_level (level : string) (comparison_data : list Row) : nat :=
  length (filter (λ row, Type_ row = level) comparison_data).

(** The summary statistics, computed from the rows. *)
Definition summary (comparison_data : list Row) : Summary :=
  let total_databases := count_level "Database" comparison_data in
  let total_collections := count_level "Collection" comparison_data in
  let db_mismatches := count_tagged "Database" "MISMATCH" comparison_data in
  let coll_mismatches := count_tagged "Collection" "MISMATCH" comparison_data in
  let missing_dbs := count_tagged "Database" "MISSING" comparison_data in
  let missing_colls := count_tagged "Collection" "MISSING" comparison_data in
  {| total_databases := total_databases;
     db_mismatches := db_mismatches;
     missing_dbs := missing_dbs;
     total_collections := total_collections;
     coll_mismatches := coll_mismatches;
     missing_colls := missing_colls;
     overall_status :=
       if (db_mismatches + coll_mismatches + missing_dbs + missing_colls =? 0)%nat
       then "PASS" else "FAIL" |}.

(** ** Column sizing in [create_excel_report] *)

(** [str(cell.value)]: a string is itself, an integer is written in
    decimal. *)
Definition str (v : Value) : string :=
  match v with
  | VStr s => s
  | VInt z => pretty z
  end.

(** The inner loop over the cells of one column. *)
Definition max_length (column : list Value) : nat :=
  foldl (λ max_length cell,
           if (max_length <? String.length (str cell))%nat
           then String.length (str cell) else max_length)
        0%nat column.

(** Width given to a column of the sheet "Hash Comparison". *)
Definition adjusted_width (column : list Value) : nat :=
  (max_length column + 2) `min` 50.

(** Width given to a column of the sheet "Summary". *)
Definition summary_adjusted_width (column : list Value) : nat :=
  max_length column + 2.

(** A worksheet is the list of the rows appended to it; [ws.columns] yields
    its columns from left to right.  Every row of the two sheets has as many
    cells as the first one. *)
Definition column (sheet : list (list Value)) (j : nat) : list Value :=
  omap (λ row, row !! j) sheet.

Definition columns (sheet : list (list Value)) : list (list Value) :=
  match sheet with
  | [] => []
  | first :: _ => column sheet <$> seq 0 (length first)
  end.

(** The header and the cells of one row, in the order of the keys of the
    row dictionaries. *)
Definition header : list Value :=
  VStr <$> ["Type"; "Database"; "Collection"; "Source_Hash";
            "Destination_Hash"; "Match"; "Source_Host"; "Dest_Host";
            "Source_Time_ms"; "Dest_Time_ms"].

Definition row_cells (r : Row) : list Value :=
  [VStr (Type_ r); VStr (Database r); VStr (Collection r);
   VStr (Source_Hash r); VStr (Destination_Hash r); VStr (Match r);
   VStr (Source_Host r); VStr (Dest_Host r);
   Source_Time_ms r; Dest_Time_ms r].

(** The rows written to the first sheet: the data frame of the comparison
    rows with its header.  A data frame built from no row has no column. *)
Definition comparison_sheet (comparison_data : list Row) : list (list Value) :=
  match comparison_data with
  | [] => [[]]
  | _ => header :: (row_cells <$> comparison_data)
  end.

(** [summary_data]; [generated_on] is the formatted current time. *)
Definition summary_sheet (generated_on : string) (comparison_data : list Row)
    : list (list Value) :=
  let s := summary comparison_data in
  [ [VStr "MongoDB Hash Comparison Summary"; VStr ""];
    [VStr "Generated on"; VStr generated_on];
    [VStr ""; VStr ""];
    [VStr "Total Databases Compared"; VInt (Z.of_nat (total_databases s))];
    [VStr "Database Hash Mismatches"; VInt (Z.of_nat (db_mismatches s))];
    [VStr "Missing Databases"; VInt (Z.of_nat (missing_dbs s))];
    [VStr ""; VStr ""];
    [VStr "Total Collections Compared"; VInt (Z.of_nat (total_collections s))];
    [VStr "Collection Hash Mismatches"; VInt (Z.of_nat (coll_mismatches s))];
    [VStr "Missing Collections"; VInt (Z.of_nat (missing_colls s))];
    [VStr ""; VStr ""];
    [VStr "Overall Status"; VStr (overall_status s)] ].

(** The widths recorded in [column_dimensions], from left to right. *)
Definition comparison_widths (comparison_data : list Row) : list nat :=
  adjusted_width <$> columns (comparison_sheet comparison_data).

Definition summary_widths (generated_on : string) (comparison_data : list Row)
    : list nat :=
  summary_adjusted_width
  <$> columns (summary_sheet generated_on comparison_data).

(** ** The inventory collector *)

(** The outcome of a call that may raise. *)
Inductive result (A : Type) :=
  | Ok (a : A)
  | Raise (msg : string).
Arguments Ok {A} a.
Arguments Raise {A} msg.

(** The reply of the server to the command [dbHash]; every field may be
    missing. *)
Record DbHashReply := {
  reply_host : option string;
  reply_collections : option (gmap string string);
  reply_md5 : option string;
  reply_timeMillis : option Z
}.

(** A connected client, as far as the script uses it: the list of the
    database names, the command [dbHash] on a database, and the reading of
    the clock when the reply to it arrives. *)
Record Client := {
  list_database_names : result (list string);
  command_dbHash : string → result DbHashReply;
  now_isoformat : string → string
}.

Definition system_dbs : gset string := {[ "admin"; "local"; "config" ]}.

(** [get_non_system_databases]: the names outside [system_dbs], or the
    empty list when the listing raises. *)
Definition get_non_system_databases (client : Client) : list string :=
  match list_database_names client with
  | Ok all_dbs => filter (λ db, db ∉ system_dbs) all_dbs
  | Raise _ => []
  end.

(** The dictionary built from a reply. *)
Definition hash_info (client : Client) (database : string)
    (reply : DbHashReply) : DbInfo :=
  Build_DbInfo
    (* database *) (Some database)
    (* host *) (Some (default "unknown" (reply_host reply)))
    (* collections *) (Some (default ∅ (reply_collections reply)))
    (* md5 *) (Some (default "" (reply_md5 reply)))
    (* timeMillis *) (Some (default 0%Z (reply_timeMillis reply)))
    (* timestamp *) (Some (now_isoformat client database)).

(** [run_db_hash]: the exception of a failed command is caught, and the
    empty dictionary returned. *)
Definition run_db_hash (client : Client) (database : string) : DbInfo :=
  match command_dbHash client database with
  | Ok reply => hash_info client database reply
  | Raise _ => empty_dict
  end.

(** One of the two loops of [collect_all_hashes]. *)
Definition collect_hashes (client : Client) (dbs : list string) : Inventory :=
  foldl (λ (hashes : Inventory) db_name,
           let hash_result := run_db_hash client db_name in
           if negb (is_empty hash_result)
           then <[db_name := hash_result]> hashes
           else hashes)
        ∅ dbs.

Definition collect_all_hashes (source_client dest_client : Client)
    : Inventory * Inventory :=
  let source_dbs := get_non_system_databases source_client in
  let dest_dbs := get_non_system_databases dest_client in
  (collect_hashes source_client source_dbs,
   collect_hashes dest_client dest_dbs).

(** ** The report and the exit status *)

(** The workbook that [create_excel_report] saves, as far as modelled: the
    rows and the column widths of its two sheets. *)
Record Workbook := {
  hash_comparison_rows : list (list Value);
  hash_comparison_widths : list nat;
  summary_rows : list (list Value);
  summary_column_widths : list nat
}.

(** What [parser.parse_args] does with the command line: it returns, or it
    prints the help and exits with status 0, or it reports a usage error and
    exits with status 2. *)
Inductive CommandLine :=
  | Parsed
  | HelpRequested
  | UsageError.

(** What one run of the script finds around it. *)
Record Environment := {
  (** the variables [SOURCE_MONGODB_URI] and [DEST_MONGODB_URI] *)
  env_source_uri : option string;
  env_dest_uri : option string;
  command_line : CommandLine;
  (** the outcome of creating the two clients and of the two pings *)
  clusters : result (Client * Client);
  (** the current time as written on the summary sheet *)
  generated_on_now : string;
  (** the outcome of [wb.save] *)
  wb_save : Workbook → result unit
}.

(** [not uri] for the value of [os.getenv]. *)
Definition unset (uri : option string) : bool :=
  match uri with
  | None => true
  | Some s => bool_decide (s = "")
  end.

(** [connect_to_clusters]: [True] with the two clients kept in the object,
    or [False] when an exception was caught. *)
Definition connect_to_clusters (env : Environment) : option (Client * Client) :=
  match clusters env with
  | Ok clients => Some clients
  | Raise _ => None
  end.

(** [create_excel_report]: an exception of the save is logged and raised
    again. *)
Definition create_excel_report (env : Environment)
    (comparison_data : list Row) : result Workbook :=
  let wb :=
    {| hash_comparison_rows := comparison_sheet comparison_data;
       hash_comparison_widths := comparison_widths comparison_data;
       summary_rows := summary_sheet (generated_on_now env) comparison_data;
       summary_column_widths :=
         summary_widths (generated_on_now env) comparison_data |} in
  match wb_save env wb with
  | Ok _ => Ok wb
  | Raise msg => Raise msg
  end.

(** [run_comparison]: [True] when the comparison ran to its end. *)
Definition run_comparison (env : Environment) : bool :=
  match connect_to_clusters env with
  | None => false
  | Some (source_client, dest_client) =>
      let hashes := collect_all_hashes source_client dest_client in
      let source_hashes := hashes.1 in
      let dest_hashes := hashes.2 in
      if bool_decide (source_hashes = ∅) && bool_decide (dest_hashes = ∅)
      then false
      else
        let comparison_data :=
          prepare_comparison_data source_hashes dest_hashes in
        match create_excel_report env comparison_data with
        | Ok _ => true
        | Raise _ => false
        end
  end.

(** [main]: the exit status of the process.  The two variables are checked
    before the command line is parsed. *)
Definition main (env : Environment) : Z :=
  if unset (env_source_uri env) then 1%Z
  else if unset (env_dest_uri env) then 1%Z
  else
    match command_line env with
    | HelpRequested => 0%Z
    | UsageError => 2%Z
    | Parsed => if run_comparison env then 0%Z else 1%Z
    end.

(** ** The reconciliation on the object store

    To speak about what the function does to its arguments, the objects are
    put in a store: a dictionary or a list lives at a location, and a
    variable holds a reference to it, so that two variables may name the same
    object.  The function is written over the store operations it performs:
    reading a dictionary, creating an object, appending to a list. *)

Module Py.

Definition loc := nat.

(** Values: strings, integers and [None] are immutable; a dictionary or a
    list is held through a reference. *)
Inductive val :=
  | PNone
  | PStr (s : string)
  | PInt (z : Z)
  | PRef (l : loc).

Global Instance val_eq_dec : EqDecision val.
Proof. solve_decision. Defined.

Inductive obj :=
  | ODict (d : gmap string val)
  | OList (vs : list val).

Abbreviation heap := (gmap loc obj).

(** A computation reads and updates the store, or stops with an error
    (an operation applied to an object of the wrong kind). *)
Definition M (A : Type) : Type := heap → option (A * heap).

Global Instance M_ret : MRet M := λ A a h, Some (a, h).

Global Instance M_bind : MBind M := λ A B f m h,
  match m h with
  | Some (a, h') => f a h'
  | None => None
  end.

Definition fail {A} : M A := λ _, None.

(** Creation of an object: it is placed at an unused location. *)
Definition alloc (o : obj) : M val := λ h,
  let l := fresh (dom h) in Some (PRef l, <[l := o]> h).

(** The dictionary a value refers to. *)
Definition read_dict (v : val) : M (gmap string val) := λ h,
  match v with
  | PRef l =>
      match h !! l with
      | Some (ODict d) => Some (d, h)
      | _ => None
      end
  | _ => None
  end.

(** [d.get(key, default)]. *)
Definition dict_get (d : val) (key : string) (default_ : val) : M val :=
  m ← read_dict d; mret (default default_ (m !! key)).

(** [set(d.keys())]. *)
Definition dict_keys (d : val) : M (gset string) :=
  m ← read_dict d; mret (dom m).

(** [not d] for a dictionary. *)
Definition dict_not (d : val) : M bool :=
  m ← read_dict d; mret (bool_decide (m = ∅)).

(** [a == b] on strings, integers and [None]. *)
Definition py_eq (a b : val) : M bool :=
  match a, b with
  | PRef _, _ | _, PRef _ => fail
  | _, _ => mret (bool_decide (a = b))
  end.

(** [lst.append(v)]: the list object is updated in place. *)
Definition list_append (lst : val) (v : val) : M unit := λ h,
  match lst with
  | PRef l =>
      match h !! l with
      | Some (OList vs) => Some ((), <[l := OList (vs ++ [v])]> h)
      | _ => None
      end
  | _ => None
  end.

(** [for x in xs: body]. *)
Fixpoint for_each {A} (xs : list A) (body : A → M unit) : M unit :=
  match xs with
  | [] => mret ()
  | x :: xs => _ ← body x; for_each xs body
  end.

(** The dictionary literal of a row. *)
Definition row_dict (type_ database collection source_hash destination_hash
    match_ source_host dest_host source_time dest_time : val)
    : gmap string val :=
  {[ "Type" := type_; "Database" := database; "Collection" := collection;
     "Source_Hash" := source_hash; "Destination_Hash" := destination_hash;
     "Match" := match_; "Source_Host" := source_host;
     "Dest_Host" := dest_host; "Source_Time_ms" := source_time;
     "Dest_Time_ms" := dest_time ]}.

Definition collection_body (comparison_data : val) (db_name : string)
    (source_info dest_info source_collections dest_collections : val)
    (coll_name : string) : M unit :=
  source_hash ← dict_get source_collections coll_name (PStr "MISSING");
  dest_hash ← dict_get dest_collections coll_name (PStr "MISSING");
  source_missing ← py_eq source_hash (PStr "MISSING");
  dest_missing ← py_eq dest_hash (PStr "MISSING");
  match_ ←
    (if source_missing || dest_missing then mret (PStr "MISSING COLLECTION")
     else same ← py_eq source_hash dest_hash;
          mret (PStr (if same : bool then "MATCH" else "MISMATCH")));
  source_host ← dict_get source_info "host" (PStr "N/A");
  dest_host ← dict_get dest_info "host" (PStr "N/A");
  coll_row ← alloc (ODict (row_dict (PStr "Collection") (PStr db_name)
                (PStr coll_name) source_hash dest_hash match_
                source_host dest_host (PStr "") (PStr "")));
  list_append comparison_data coll_row.

Definition database_body (comparison_data source_hashes dest_hashes : val)
    (db_name : string) : M unit :=
  empty1 ← alloc (ODict ∅);
  source_info ← dict_get source_hashes db_name empty1;
  empty2 ← alloc (ODict ∅);
  dest_info ← dict_get dest_hashes db_name empty2;
  source_md5 ← dict_get source_info "md5" (PStr "MISSING");
  dest_md5 ← dict_get dest_info "md5" (PStr "MISSING");
  no_source ← dict_not source_info;
  no_dest ← dict_not dest_info;
  match_ ←
    (if no_source || no_dest then mret (PStr "MISSING DB")
     else a ← dict_get source_info "md5" PNone;
          b ← dict_get dest_info "md5" PNone;
          same ← py_eq a b;
          mret (PStr (if same : bool then "MATCH" else "MISMATCH")));
  source_host ← dict_get source_info "host" (PStr "N/A");
  dest_host ← dict_get dest_info "host" (PStr "N/A");
  source_time ← dict_get source_info "timeMillis" (PInt 0);
  dest_time ← dict_get dest_info "timeMillis" (PInt 0);
  db_row ← alloc (ODict (row_dict (PStr "Database") (PStr db_name) (PStr "")
              source_md5 dest_md5 match_ source_host dest_host
              source_time dest_time));
  _ ← list_append comparison_data db_row;
  empty3 ← alloc (ODict ∅);
  source_collections ← dict_get source_info "collections" empty3;
  empty4 ← alloc (ODict ∅);
  dest_collections ← dict_get dest_info "collections" empty4;
  source_keys ← dict_keys source_collections;
  dest_keys ← dict_keys dest_collections;
  let all_collections := source_keys ∪ dest_keys in
  for_each (sorted (elements all_collections))
    (collection_body comparison_data db_name source_info dest_info
       source_collections dest_collections).

(** [prepare_comparison_data] on references to the two inventories; the
    result is the reference to the new list. *)
Definition prepare_comparison_data (source_hashes dest_hashes : val) : M val :=
  comparison_data ← alloc (OList []);
  source_keys ← dict_keys source_hashes;
  dest_keys ← dict_keys dest_hashes;
  let all_databases := source_keys ∪ dest_keys in
  _ ← for_each (sorted (elements all_databases))
        (database_body comparison_data source_hashes dest_hashes);
  mret comparison_data.

End Py.

(** ** Styles of [create_excel_report] *)

(** [PatternFill(start_color=..., end_color=..., fill_type='solid')]. *)
Record PatternFill := {
  start_color : string;
  end_color : string;
  fill_type : string
}.

Definition mismatch_fill : PatternFill :=
  {| start_color := "FFE6E6"; end_color := "FFE6E6"; fill_type := "solid" |}.
Definition missing_fill : PatternFill :=
  {| start_color := "FFF0E6"; end_color := "FFF0E6"; fill_type := "solid" |}.
Definition match_fill : PatternFill :=
  {| start_color := "E6F7E6"; end_color := "E6F7E6"; fill_type := "solid" |}.

(** The fill chosen for a data row from the content of its cell in column F;
    [None] when no branch applies.  A cell that does not exist reads as
    [None], which [str] writes ["None"]. *)
Definition row_fill (cells : list Value) : option PatternFill :=
  let match_status :=
    match cells !! 5 with
    | Some v => str v
    | None => "None"
    end in
  if contains "MISMATCH" match_status then Some mismatch_fill
  else if contains "MISSING" match_status then Some missing_fill
  else if bool_decide ("MATCH" = match_status) then Some match_fill
  else None.

(** The conditional formatting: the rows of the sheet from the second one
    on, each with the fill of the row on every cell. *)
Definition conditional_fills (sheet : list (list Value))
    : list (list (option PatternFill)) :=
  (λ cells, (λ _, row_fill cells) <$> cells) <$> drop 1 sheet.

(** [Font(bold=..., size=...)]; a font made without a size has none of its
    own. *)
Record Font := {
  font_bold : bool;
  font_size : option nat
}.

(** The font of a cell that was given none. *)
Definition default_font : Font := {| font_bold := false; font_size := Some 11 |}.

Global Instance Value_eq_dec : EqDecision Value.
Proof. solve_decision. Defined.

(** The truth value of a cell content. *)
Definition truthy (v : Value) : bool :=
  match v with
  | VStr s => negb (bool_decide (s = ""))
  | VInt z => negb (bool_decide (z = 0%Z))
  end.

(** The fonts of the first column of the summary sheet after the styling:
    the first cell gets a bold font of size 14, then every row whose first
    cell is not empty and has no colon gets a bold font. *)
Definition summary_label_fonts (sheet : list (list Value)) : list Font :=
  let fonts := replicate (length sheet) default_font in
  let fonts := <[0 := {| font_bold := true; font_size := Some 14 |}]> fonts in
  zip_with (λ row font,
              match row !! 0 with
              | Some v =>
                  if truthy v && negb (contains ":" (str v))
                     && negb (bool_decide (v = VStr ""))
                  then {| font_bold := true; font_size := None |}
                  else font
              | None => font
              end)
           sheet fonts.

(** ** The writes of [run_comparison] and the log of [main] *)

(** The workbook that [create_excel_report] builds for the rows. *)
Definition report_workbook (env : Environment) (comparison_data : list Row)
    : Workbook :=
  {| hash_comparison_rows := comparison_sheet comparison_data;
     hash_comparison_widths := comparison_widths comparison_data;
     summary_rows := summary_sheet (generated_on_now env) comparison_data;
     summary_column_widths :=
       summary_widths (generated_on_now env) comparison_data |}.

(** The workbooks passed to [wb.save] in the course of [run_comparison], in
    the order of the calls. *)
Definition run_comparison_saves (env : Environment) : list Workbook :=
  match connect_to_clusters env with
  | None => []
  | Some (source_client, dest_client) =>
      let hashes := collect_all_hashes source_client dest_client in
      let source_hashes := hashes.1 in
      let dest_hashes := hashes.2 in
      if bool_decide (source_hashes = ∅) && bool_decide (dest_hashes = ∅)
      then []
      else [report_workbook env
              (prepare_comparison_data source_hashes dest_hashes)]
  end.

(** [s.split(sep)] for a separator of one character. *)
Fixpoint split (sep : ascii) (s : string) : list string :=
  match s with
  | EmptyString => [""]
  | String c s' =>
      if bool_decide (c = sep) then "" :: split sep s'
      else
        match split sep s' with
        | piece :: pieces => String c piece :: pieces
        | [] => [String c ""]
        end
  end.

(** What [main] logs for a cluster:
    [uri.split('@')[-1] if '@' in uri else uri]. *)
Definition logged_cluster (uri : string) : string :=
  if contains "@" uri then default uri (last (split "@" uri)) else uri.

(** * Part II: the vocabulary of the statements *)

(** ** The shape of the output *)

(** What [dict.get(db_name, {})] returns on each side. *)
Definition info_of (hashes : Inventory) (db_name : string) : DbInfo :=
  default empty_dict (hashes !! db_name).

(** What [info.get('collections', {})] returns. *)
Definition collections_of (hashes : Inventory) (db_name : string)
    : gmap string string :=
  default ∅ (collections (info_of hashes db_name)).

Section Blocks.

Variable iter : gset string → list string.
Variables source_hashes dest_hashes : Inventory.

(** The collection names visited by the inner loop for [db_name]. *)
Definition coll_names (db_name : string) : list string :=
  sorted (iter (dom (collections_of source_hashes db_name)
                ∪ dom (collections_of dest_hashes db_name))).

(** The collection rows appended for [db_name]. *)
Definition coll_rows (db_name : string) : list Row :=
  coll_row db_name (info_of source_hashes db_name) (info_of dest_hashes db_name)
    (collections_of source_hashes db_name) (collections_of dest_hashes db_name)
  <$> coll_names db_name.

(** All rows appended by one iteration of the outer loop. *)
Definition db_block (db_name : string) : list Row :=
  db_row db_name (info_of source_hashes db_name) (info_of dest_hashes db_name)
  :: coll_rows db_name.

(** The database names visited by the outer loop. *)
Definition db_names : list string :=
  sorted (iter (dom source_hashes ∪ dom dest_hashes)).

End Blocks.

(** The output as a list of pairs: a database row and the collection rows
    that follow it. *)
Definition blocks_of (source_hashes dest_hashes : Inventory)
    (l : list string) : list (Row * list Row) :=
  (λ d, (db_row d (info_of source_hashes d) (info_of dest_hashes d),
         coll_rows elements source_hashes dest_hashes d)) <$> l.

(** The collection rows of the output that carry a given database name. *)
Definition is_coll_row_of (db_name : string) (r : Row) : Prop :=
  Type_ r = "Collection" ∧ Database r = db_name.

Global Instance is_coll_row_of_dec d r : Decision (is_coll_row_of d r).
Proof. unfold is_coll_row_of. apply _. Defined.

(** An iteration order that visits every element of a set once. *)
Definition valid_iter (iter : gset string → list string) : Prop :=
  ∀ X, iter X ≡ₚ elements X.

(** ** Digests as the inventories hold them *)

(** The aggregate digest of a database on one side, if any. *)
Definition db_digest (hashes : Inventory) (db_name : string) : option string :=
  match hashes !! db_name with
  | Some info => md5 info
  | None => None
  end.

(** The digest of a collection on one side, if any: the database record, its
    collection mapping and the collection key must all be there. *)
Definition coll_digest (hashes : Inventory) (db_name coll_name : string)
    : option string :=
  match hashes !! db_name with
  | Some info =>
      match collections info with
      | Some colls => colls !! coll_name
      | None => None
      end
  | None => None
  end.

(** The two digests a row compares. *)
Definition row_digests (source_hashes dest_hashes : Inventory) (r : Row)
    : option string * option string :=
  if bool_decide (Type_ r = "Database")
  then (db_digest source_hashes (Database r), db_digest dest_hashes (Database r))
  else (coll_digest source_hashes (Database r) (Collection r),
        coll_digest dest_hashes (Database r) (Collection r)).

(** Inventories as [collect_all_hashes] builds them: every record carries
    the aggregate digest. *)
Definition Inventory_wf (hashes : Inventory) : Prop :=
  ∀ db_name info, hashes !! db_name = Some info → is_Some (md5 info).

(** ** Databases present on one side only *)

Definition present_in_exactly_one (source_hashes dest_hashes : Inventory)
    (db_name : string) : Prop :=
  (is_Some (source_hashes !! db_name) ∧ dest_hashes !! db_name = None)
  ∨ (source_hashes !! db_name = None ∧ is_Some (dest_hashes !! db_name)).

(** The record of [db_name] on the side that has one (the source side
    first). *)
Definition present_record (source_hashes dest_hashes : Inventory)
    (db_name : string) : DbInfo :=
  match source_hashes !! db_name with
  | Some info => info
  | None => info_of dest_hashes db_name
  end.

(** The collection rows of the output for [db_name]. *)
Definition collection_rows_of (source_hashes dest_hashes : Inventory)
    (db_name : string) : list Row :=
  filter (is_coll_row_of db_name)
         (prepare_comparison_data source_hashes dest_hashes).

(** The statement of the specification: no collection row for a database
    that one side lacks, and collection rows only for a database that both
    sides have. *)
Definition single_sided_without_collection_rows
    (source_hashes dest_hashes : Inventory) (db_name : string) : Prop :=
  (present_in_exactly_one source_hashes dest_hashes db_name →
   collection_rows_of source_hashes dest_hashes db_name = [])
  ∧ (collection_rows_of source_hashes dest_hashes db_name ≠ [] →
     is_Some (source_hashes !! db_name) ∧ is_Some (dest_hashes !! db_name)).

(** ** Classification *)

(** The statement of the specification, for one row: the classification is
    decided by the presence and the equality of the two digests. *)
Definition classified_by_presence (source_hashes dest_hashes : Inventory)
    (r : Row) : Prop :=
  let sd := (row_digests source_hashes dest_hashes r).1 in
  let dd := (row_digests source_hashes dest_hashes r).2 in
  (Match r = "MATCH" ↔ ∃ h, sd = Some h ∧ dd = Some h)
  ∧ (Match r = "MISMATCH" ↔ ∃ h1 h2, sd = Some h1 ∧ dd = Some h2 ∧ h1 ≠ h2)
  ∧ (Match r = "MISSING DB" ∨ Match r = "MISSING COLLECTION"
     ↔ sd = None ∨ dd = None).

(** A digest that the collection loop treats as missing: no digest, or the
    string ["MISSING"] itself. *)
Definition absent_or_sentinel (o : option string) : Prop :=
  o = None ∨ o = Some "MISSING".

(** What the code does: database rows are classified by presence, collection
    rows by comparison with the string ["MISSING"]. *)
Definition classified_by_sentinel (source_hashes dest_hashes : Inventory)
    (r : Row) : Prop :=
  let sd := (row_digests source_hashes dest_hashes r).1 in
  let dd := (row_digests source_hashes dest_hashes r).2 in
  if bool_decide (Type_ r = "Database") then
    (Match r = "MATCH" ↔ ∃ h, sd = Some h ∧ dd = Some h)
    ∧ (Match r = "MISMATCH" ↔ ∃ h1 h2, sd = Some h1 ∧ dd = Some h2 ∧ h1 ≠ h2)
    ∧ (Match r = "MISSING DB" ↔ sd = None ∨ dd = None)
  else
    (Match r = "MATCH" ↔ ∃ h, sd = Some h ∧ dd = Some h ∧ h ≠ "MISSING")
    ∧ (Match r = "MISMATCH" ↔
       ∃ h1 h2, sd = Some h1 ∧ dd = Some h2 ∧ h1 ≠ h2
                ∧ h1 ≠ "MISSING" ∧ h2 ≠ "MISSING")
    ∧ (Match r = "MISSING COLLECTION"
       ↔ absent_or_sentinel sd ∨ absent_or_sentinel dd).

(** ** Summary and column sizing *)

(** Rows as the reconciliation writes them: a database row is classified
    MATCH, MISMATCH or MISSING DB, a collection row MATCH, MISMATCH or
    MISSING COLLECTION. *)
Definition row_wf (r : Row) : Prop :=
  (Type_ r = "Database"
   ∧ (Match r = "MATCH" ∨ Match r = "MISMATCH" ∨ Match r = "MISSING DB"))
  ∨ (Type_ r = "Collection"
     ∧ (Match r = "MATCH" ∨ Match r = "MISMATCH"
        ∨ Match r = "MISSING COLLECTION")).

(** A row that carries a MISMATCH or a MISSING classification. *)
Definition flagged (r : Row) : Prop :=
  Match r = "MISMATCH" ∨ Match r = "MISSING DB" ∨ Match r = "MISSING COLLECTION".

Global Instance flagged_dec r : Decision (flagged r).
Proof. unfold flagged. apply _. Defined.

(** The length of the longest content of a column. *)
Definition longest (column : list Value) : nat :=
  foldr Nat.max 0%nat ((λ cell, String.length (str cell)) <$> column).

(** The largest length of a list ([sys.maxsize]). *)
Definition sys_maxsize : Z := 2 ^ 63 - 1.

(** ** Runs *)

(** The rows a run compares, when the clusters are reached. *)
Definition run_rows (env : Environment) : list Row :=
  match clusters env with
  | Raise _ => []
  | Ok (source_client, dest_client) =>
      prepare_comparison_data
        (collect_all_hashes source_client dest_client).1
        (collect_all_hashes source_client dest_client).2
  end.

(** Hash collection produced a record on at least one side. *)
Definition collected (env : Environment) : Prop :=
  match clusters env with
  | Raise _ => False
  | Ok (source_client, dest_client) =>
      (collect_all_hashes source_client dest_client).1 ≠ ∅
      ∨ (collect_all_hashes source_client dest_client).2 ≠ ∅
  end.

(** The statement of the specification: status zero only for a run that
    collected something and whose overall status is PASS. *)
Definition exit_zero_only_on_pass (env : Environment) : Prop :=
  main env = 0%Z →
  collected env ∧ overall_status (summary (run_rows env)) = "PASS".

(** ** Inventories and rows in the store *)

Module PyRepr.
Import Py.

(** The value refers to a dictionary object with the given content. *)
Definition dict_at (h : heap) (v : val) (d : gmap string val) : Prop :=
  ∃ l, v = PRef l ∧ h !! l = Some (ODict d).

(** The value refers to a [hash_info] dictionary that holds the record. *)
Definition repr_info (h : heap) (v : val) (info : DbInfo) : Prop :=
  ∃ d, dict_at h v d
    ∧ d !! "database" = PStr <$> database info
    ∧ d !! "host" = PStr <$> host info
    ∧ d !! "md5" = PStr <$> md5 info
    ∧ d !! "timeMillis" = PInt <$> timeMillis info
    ∧ d !! "timestamp" = PStr <$> timestamp info
    ∧ (∀ k, is_Some (d !! k) →
            k ∈ ["database"; "host"; "collections"; "md5";
                 "timeMillis"; "timestamp"])
    ∧ match collections info with
      | Some colls =>
          ∃ vc, d !! "collections" = Some vc ∧ dict_at h vc (PStr <$> colls)
      | None => d !! "collections" = None
      end.

(** The value refers to a dictionary that holds the inventory. *)
Definition repr_inventory (h : heap) (v : val) (hashes : Inventory) : Prop :=
  ∃ d, dict_at h v d
    ∧ (∀ k, d !! k = None ↔ hashes !! k = None)
    ∧ ∀ k info, hashes !! k = Some info →
        ∃ vi, d !! k = Some vi ∧ repr_info h vi info.

Definition encode_value (v : Value) : val :=
  match v with
  | VStr s => PStr s
  | VInt z => PInt z
  end.

(** The row dictionary of a row. *)
Definition encode_row (r : Row) : gmap string val :=
  row_dict (PStr (Type_ r)) (PStr (Database r)) (PStr (Collection r))
    (PStr (Source_Hash r)) (PStr (Destination_Hash r)) (PStr (Match r))
    (PStr (Source_Host r)) (PStr (Dest_Host r))
    (encode_value (Source_Time_ms r)) (encode_value (Dest_Time_ms r)).

(** The values refer to the row dictionaries of the rows, in order. *)
Definition rows_at (h : heap) (vs : list val) (rows : list Row) : Prop :=
  Forall2 (λ v r, dict_at h v (encode_row r)) vs rows.

(** The value refers to a list object that holds the rows. *)
Definition repr_rows (h : heap) (v : val) (rows : list Row) : Prop :=
  ∃ l vs, v = PRef l ∧ h !! l = Some (OList vs) ∧ rows_at h vs rows.

(** The list object at [lc] holds references to the row dictionaries of
    [rows], which live elsewhere in the store. *)
Definition list_state (lc : loc) (h : heap) (vs : list val)
    (rows : list Row) : Prop :=
  h !! lc = Some (OList vs) ∧ rows_at (delete lc h) vs rows.

(** A string or [None], as [dict.get] returns for a string field. *)
Definition opt_str (default_ : val) (o : option string) : val :=
  default default_ (PStr <$> o).

(** A computation runs without error from [h] and ends in a result and a
    store that satisfy [Φ]. *)
Definition wp {A} (m : M A) (h : heap) (Φ : A → heap → Prop) : Prop :=
  ∃ a h', m h = Some (a, h') ∧ Φ a h'.

End PyRepr.

(** ** The data of the examples *)

(** A record with a host, an aggregate digest, collection digests and an
    elapsed time. *)
Definition mk_info (h aggregate : string) (colls : list (string * string))
    (ms : Z) : DbInfo :=
  {| database := None; host := Some h; collections := Some (list_to_map colls);
     md5 := Some aggregate; timeMillis := Some ms; timestamp := None |}.

(** Scenario A: one database on both sides, with different aggregate
    digests and one differing collection. *)
Definition scenario_A_source : Inventory :=
  {[ "sales" := mk_info "s:1" "X" [("orders", "a1"); ("items", "b1")] 3%Z ]}.

Definition scenario_A_dest : Inventory :=
  {[ "sales" := mk_info "d:1" "Y" [("orders", "a1"); ("items", "b2")] 4%Z ]}.

(** Scenario B: a database on the source side only. *)
Definition scenario_B_source : Inventory :=
  {[ "orders_db" := mk_info "s:1" "X" [("orders", "a1")] 3%Z ]}.

Definition scenario_B_dest : Inventory := ∅.

(** Scenario C: the same inventory on both sides. *)
Definition scenario_C : Inventory :=
  {[ "audit" := mk_info "h:1" "Z" [("logs", "m1")] 2%Z ]}.

(** An inventory with a collection whose digest is the string ["MISSING"];
    it is used on both sides. *)
Definition sentinel_inventory : Inventory :=
  {[ "db" := mk_info "h:1" "X" [("c", "MISSING")] 1%Z ]}.

(** A reply of the server. *)
Definition audit_reply : DbHashReply :=
  {| reply_host := Some "h:1"; reply_collections := Some {[ "logs" := "m1" ]};
     reply_md5 := Some "Z"; reply_timeMillis := Some 2%Z |}.

(** A cluster on which [dbHash] succeeds for ["audit"] only. *)
Definition failing_client : Client :=
  {| list_database_names := Ok ["admin"; "sales"; "audit"];
     command_dbHash := λ db,
       if bool_decide (db = "audit") then Ok audit_reply
       else Raise "command failed";
     now_isoformat := λ _, "2025-07-24T10:00:00" |}.

(** A cluster on which [dbHash] succeeds for every database. *)
Definition healthy_client : Client :=
  {| list_database_names := Ok ["admin"; "sales"; "audit"; "local"];
     command_dbHash := λ _, Ok audit_reply;
     now_isoformat := λ _, "2025-07-24T10:00:01" |}.

(** A run on [failing_client] and [healthy_client] whose report is saved. *)
Definition failing_run : Environment :=
  {| env_source_uri := Some "mongodb://source";
     env_dest_uri := Some "mongodb://dest";
     command_line := Parsed;
     clusters := Ok (failing_client, healthy_client);
     generated_on_now := "2025-07-24 10:00:00";
     wb_save := λ _, Ok () |}.

(** The record of scenario C as a dictionary object; its collection mapping
    is the object at location 2. *)
Definition audit_dict : gmap string Py.val :=
  {[ "host" := Py.PStr "h:1"; "collections" := Py.PRef 2;
     "md5" := Py.PStr "Z"; "timeMillis" := Py.PInt 2 ]}.

(** The inventory at location 0, its record at 1, the collection mapping of
    the record at 2. *)
Definition scenario_C_store : Py.heap :=
  {[ 0 := Py.ODict {[ "audit" := Py.PRef 1 ]};
     1 := Py.ODict audit_dict;
     2 := Py.ODict {[ "logs" := Py.PStr "m1" ]} ]}.

(** ** Further vocabulary *)

(** The row with the two sides exchanged. *)
Definition swap_row (r : Row) : Row :=
  {| Type_ := Type_ r;
     Database := Database r;
     Collection := Collection r;
     Source_Hash := Destination_Hash r;
     Destination_Hash := Source_Hash r;
     Match := Match r;
     Source_Host := Dest_Host r;
     Dest_Host := Source_Host r;
     Source_Time_ms := Dest_Time_ms r;
     Dest_Time_ms := Source_Time_ms r |}.

(** An inventory that compares equal to itself: no record is the empty
    dictionary and no collection digest is the string ["MISSING"]. *)
Definition self_clean (hashes : Inventory) : Prop :=
  ∀ db_name info, hashes !! db_name = Some info →
    is_empty info = false
    ∧ ∀ colls coll_name h, collections info = Some colls →
        colls !! coll_name = Some h → h ≠ "MISSING".

(** * Part III: proofs *)

(** ** The order on strings *)

Module StrOrderFacts.

Lemma ascii_compare_refl a : Ascii.compare a a = Eq.
Proof. unfold Ascii.compare. apply N.compare_refl. Qed.

Lemma ascii_compare_lt_trans a b c :
  Ascii.compare a b = Lt → Ascii.compare b c = Lt → Ascii.compare a c = Lt.
Proof.
  unfold Ascii.compare. rewrite !N.compare_lt_iff. apply N.lt_trans.
Qed.

Lemma compare_refl s : String.compare s s = Eq.
Proof.
  induction s as [|a s IH]; simpl; [done|].
  by rewrite ascii_compare_refl.
Qed.

Lemma compare_lt_trans s1 : ∀ s2 s3,
  String.compare s1 s2 = Lt → String.compare s2 s3 = Lt →
  String.compare s1 s3 = Lt.
Proof.
  induction s1 as [|a s1 IH]; intros [|b s2] [|c s3]; simpl; try done.
  destruct (Ascii.compare a b) eqn:Hab; try done;
    destruct (Ascii.compare b c) eqn:Hbc; try done; intros H12 H23.
  - apply Ascii.compare_eq_iff in Hab, Hbc. subst.
    rewrite ascii_compare_refl. eauto.
  - apply Ascii.compare_eq_iff in Hab. subst. by rewrite Hbc.
  - apply Ascii.compare_eq_iff in Hbc. subst. by rewrite Hab.
  - by rewrite (ascii_compare_lt_trans a b c).
Qed.

Lemma leb_spec a b : str_le a b ↔ a = b ∨ str_lt a b.
Proof.
  unfold str_le, str_lt, String.leb, String.ltb.
  destruct (String.compare a b) eqn:Hc; split; try done; try (by right).
  - intros _. left. by apply String.compare_eq_iff.
  - intros [->|?]; [|done]. by rewrite compare_refl in Hc.
Qed.

Lemma str_lt_irrefl a : ¬ str_lt a a.
Proof. unfold str_lt, String.ltb. by rewrite compare_refl. Qed.

Global Instance str_lt_trans : Transitive str_lt.
Proof.
  intros a b c. unfold str_lt, String.ltb.
  destruct (String.compare a b) eqn:Hab; try done.
  destruct (String.compare b c) eqn:Hbc; try done.
  by rewrite (compare_lt_trans a b c).
Qed.

Global Instance str_le_trans : Transitive str_le.
Proof.
  intros a b c. rewrite !leb_spec.
  intros [->|Hab] [->|Hbc]; auto. right. by trans b.
Qed.

Global Instance str_le_total : Total str_le.
Proof. intros a b. apply String.leb_total. Qed.

Global Instance str_le_antisym : AntiSymm (=) str_le.
Proof. intros a b. apply String.leb_antisym. Qed.

Lemma sorted_perm l : sorted l ≡ₚ l.
Proof. apply merge_sort_Permutation. Qed.

Lemma sorted_StronglySorted l : StronglySorted str_le (sorted l).
Proof. apply StronglySorted_merge_sort; apply _. Qed.

Lemma sorted_elem_of l x : x ∈ sorted l ↔ x ∈ l.
Proof. by rewrite sorted_perm. Qed.

Lemma sorted_NoDup l : NoDup l → NoDup (sorted l).
Proof. by rewrite sorted_perm. Qed.

(** The result of [sorted] depends on the elements only, not on the order
    in which the argument enumerates them. *)
Lemma sorted_proper l1 l2 : l1 ≡ₚ l2 → sorted l1 = sorted l2.
Proof.
  intros Hp. apply (StronglySorted_unique str_le).
  - apply sorted_StronglySorted.
  - apply sorted_StronglySorted.
  - by rewrite !sorted_perm.
Qed.

Lemma StronglySorted_le_lt l :
  NoDup l → StronglySorted str_le l → StronglySorted str_lt l.
Proof.
  induction 2 as [|x l Hs IH Hx]; [constructor|].
  apply NoDup_cons in H as [Hni Hnd].
  constructor; [by apply IH|].
  apply Forall_forall. intros y Hy.
  rewrite Forall_forall in Hx.
  destruct (proj1 (leb_spec x y) (Hx y Hy)) as [->|]; done.
Qed.

Lemma sorted_strict l : NoDup l → StronglySorted str_lt (sorted l).
Proof.
  intros Hnd. apply StronglySorted_le_lt.
  - by apply sorted_NoDup.
  - apply sorted_StronglySorted.
Qed.

End StrOrderFacts.
Export StrOrderFacts.

Example sorted_example :
  sorted ["sales"; "audit"; "Zeta"; "sale"; ""]
  = [""; "Zeta"; "audit"; "sale"; "sales"].
Proof. vm_compute. reflexivity. Qed.

Lemma is_empty_spec d : is_empty d = true ↔ d = empty_dict.
Proof.
  destruct d as [[?|] [?|] [?|] [?|] [?|] [?|]]; split; try done.
Qed.

Example scenario_A :
  map (λ r, (Type_ r, Database r, Collection r, Match r))
      (prepare_comparison_data scenario_A_source scenario_A_dest)
  = [("Database", "sales", "", "MISMATCH");
     ("Collection", "sales", "items", "MISMATCH");
     ("Collection", "sales", "orders", "MATCH")].
Proof. vm_compute. reflexivity. Qed.

(** ** The shape of the output *)

Lemma foldl_append {A B} (f : A → B) (l : list A) (acc : list B) :
  foldl (λ acc x, acc ++ [f x]) acc l = acc ++ (f <$> l).
Proof.
  revert acc. induction l as [|x l IH]; intros acc; simpl.
  - by rewrite app_nil_r.
  - rewrite IH. by rewrite <-app_assoc.
Qed.

Lemma filter_none {A} (P : A → Prop) `{!∀ x, Decision (P x)} (l : list A) :
  Forall (λ x, ¬ P x) l → filter P l = [].
Proof.
  induction 1 as [|x l Hx _ IH]; [done|]. by rewrite filter_cons_False.
Qed.

Lemma filter_all {A} (P : A → Prop) `{!∀ x, Decision (P x)} (l : list A) :
  Forall P l → filter P l = l.
Proof.
  induction 1 as [|x l Hx _ IH]; [done|].
  rewrite filter_cons_True by done. by f_equal.
Qed.

Section Shape.

Variable iter : gset string → list string.
Variables source_hashes dest_hashes : Inventory.

Local Abbreviation block := (db_block iter source_hashes dest_hashes).
Local Abbreviation rows_of := (coll_rows iter source_hashes dest_hashes).
Local Abbreviation names_of := (coll_names iter source_hashes dest_hashes).

Lemma db_step_block acc db_name :
  db_step iter source_hashes dest_hashes acc db_name = acc ++ block db_name.
Proof.
  unfold db_step, db_block, coll_rows, coll_names, collections_of, info_of.
  cbv zeta. rewrite foldl_append. by rewrite <-app_assoc.
Qed.

Lemma foldl_db_step acc l :
  foldl (db_step iter source_hashes dest_hashes) acc l = acc ++ (l ≫= block).
Proof.
  revert acc. induction l as [|d l IH]; intros acc; simpl.
  - by rewrite app_nil_r.
  - rewrite IH, db_step_block. by rewrite <-app_assoc.
Qed.

(** The two nested loops produce the concatenation of the blocks. *)
Lemma prepare_comparison_data_blocks :
  prepare_comparison_data_iter iter source_hashes dest_hashes
  = db_names iter source_hashes dest_hashes ≫= block.
Proof. unfold prepare_comparison_data_iter. cbv zeta. apply foldl_db_step. Qed.

Lemma coll_rows_Type db_name r :
  r ∈ rows_of db_name → Type_ r = "Collection" ∧ Database r = db_name.
Proof.
  unfold coll_rows. intros (c & -> & _)%list_elem_of_fmap. done.
Qed.

Lemma coll_rows_Collection db_name :
  Collection <$> rows_of db_name = names_of db_name.
Proof.
  unfold coll_rows. rewrite <-list_fmap_compose.
  induction (names_of db_name) as [|c l IH]; simpl; [done|]. by f_equal.
Qed.

Lemma filter_Database_block db_name :
  filter (λ r, Type_ r = "Database") (block db_name)
  = [db_row db_name (info_of source_hashes db_name)
       (info_of dest_hashes db_name)].
Proof.
  unfold db_block. rewrite filter_cons_True by done. f_equal.
  apply filter_none, Forall_forall. intros r [Hr _]%coll_rows_Type.
  by rewrite Hr.
Qed.

Lemma filter_Database_blocks l :
  Database <$> filter (λ r, Type_ r = "Database") (l ≫= block) = l.
Proof.
  induction l as [|d l IH]; [done|].
  rewrite bind_cons, filter_app, fmap_app, IH, filter_Database_block. done.
Qed.

Lemma filter_coll_block_same db_name :
  filter (is_coll_row_of db_name) (block db_name) = rows_of db_name.
Proof.
  unfold db_block. rewrite filter_cons_False by (by intros [? _]).
  apply filter_all, Forall_forall. intros r Hr. by apply coll_rows_Type.
Qed.

Lemma filter_coll_block_other db_name d :
  d ≠ db_name → filter (is_coll_row_of db_name) (block d) = [].
Proof.
  intros Hne. apply filter_none, Forall_forall. intros r Hr [Ht Hd].
  apply elem_of_cons in Hr as [->|Hr]; [done|].
  apply coll_rows_Type in Hr as [_ Hr]. congruence.
Qed.

Lemma filter_coll_blocks_notin db_name l :
  db_name ∉ l → filter (is_coll_row_of db_name) (l ≫= block) = [].
Proof.
  induction l as [|d l IH]; [done|]. intros [Hne Hni]%not_elem_of_cons.
  rewrite bind_cons, filter_app, IH by done.
  rewrite filter_coll_block_other by done. done.
Qed.

Lemma filter_coll_blocks_in db_name l :
  NoDup l → db_name ∈ l →
  filter (is_coll_row_of db_name) (l ≫= block) = rows_of db_name.
Proof.
  induction 1 as [|d l Hni Hnd IH]; [by intros ?%elem_of_nil|].
  rewrite bind_cons, filter_app. intros [->|Hin]%elem_of_cons.
  - rewrite filter_coll_block_same, filter_coll_blocks_notin by done.
    by rewrite app_nil_r.
  - rewrite IH by done.
    rewrite filter_coll_block_other; [done|]. by intros ->.
Qed.

End Shape.

Lemma valid_iter_elements : valid_iter elements.
Proof. by intros X. Qed.

Section ShapeValid.

Variable iter : gset string → list string.
Hypothesis iter_ok : valid_iter iter.
Variables source_hashes dest_hashes : Inventory.

Lemma db_names_elem_of d :
  d ∈ db_names iter source_hashes dest_hashes
  ↔ d ∈ dom source_hashes ∨ d ∈ dom dest_hashes.
Proof.
  unfold db_names. rewrite sorted_elem_of, (iter_ok _), elem_of_elements.
  apply elem_of_union.
Qed.

Lemma db_names_NoDup : NoDup (db_names iter source_hashes dest_hashes).
Proof.
  unfold db_names. apply sorted_NoDup. rewrite (iter_ok _). apply NoDup_elements.
Qed.

Lemma db_names_sorted :
  StronglySorted str_lt (db_names iter source_hashes dest_hashes).
Proof.
  unfold db_names. apply sorted_strict. rewrite (iter_ok _). apply NoDup_elements.
Qed.

Lemma coll_names_elem_of d c :
  c ∈ coll_names iter source_hashes dest_hashes d
  ↔ c ∈ dom (collections_of source_hashes d)
    ∨ c ∈ dom (collections_of dest_hashes d).
Proof.
  unfold coll_names. rewrite sorted_elem_of, (iter_ok _), elem_of_elements.
  apply elem_of_union.
Qed.

Lemma coll_names_sorted d :
  StronglySorted str_lt (coll_names iter source_hashes dest_hashes d).
Proof.
  unfold coll_names. apply sorted_strict. rewrite (iter_ok _).
  apply NoDup_elements.
Qed.

(** The enumeration order does not matter once the names are sorted. *)
Lemma db_names_canonical :
  db_names iter source_hashes dest_hashes
  = db_names elements source_hashes dest_hashes.
Proof. unfold db_names. apply sorted_proper, iter_ok. Qed.

Lemma coll_names_canonical d :
  coll_names iter source_hashes dest_hashes d
  = coll_names elements source_hashes dest_hashes d.
Proof. unfold coll_names. apply sorted_proper, iter_ok. Qed.

End ShapeValid.

Lemma coll_digest_collections_of hashes d c :
  coll_digest hashes d c = collections_of hashes d !! c.
Proof.
  unfold coll_digest, collections_of, info_of.
  destruct (hashes !! d) as [i|]; simpl; [|done].
  destruct (collections i); simpl; done.
Qed.

Lemma elem_of_dom_collections_of hashes d c :
  c ∈ dom (collections_of hashes d) ↔ is_Some (coll_digest hashes d c).
Proof. rewrite coll_digest_collections_of. apply elem_of_dom. Qed.

Lemma collections_of_absent hashes d :
  hashes !! d = None → collections_of hashes d = ∅.
Proof. unfold collections_of, info_of. by intros ->. Qed.

Lemma info_of_not_empty hashes d i :
  Inventory_wf hashes → hashes !! d = Some i → is_empty (info_of hashes d) = false.
Proof.
  intros Hwf Hd. unfold info_of. rewrite Hd. simpl.
  destruct (Hwf _ _ Hd) as [h Hh].
  unfold is_empty. rewrite Hh. by repeat case_match.
Qed.

Section Rows.

Variables source_hashes dest_hashes : Inventory.

(** Every row of the output is the database row of a visited name or the
    collection row of a visited collection name. *)
Lemma elem_of_prepare_comparison_data r :
  r ∈ prepare_comparison_data source_hashes dest_hashes ↔
  ∃ d, (d ∈ dom source_hashes ∨ d ∈ dom dest_hashes) ∧
    (r = db_row d (info_of source_hashes d) (info_of dest_hashes d) ∨
     ∃ c, (c ∈ dom (collections_of source_hashes d)
           ∨ c ∈ dom (collections_of dest_hashes d)) ∧
       r = coll_row d (info_of source_hashes d) (info_of dest_hashes d)
             (collections_of source_hashes d) (collections_of dest_hashes d) c).
Proof.
  unfold prepare_comparison_data.
  rewrite prepare_comparison_data_blocks, list_elem_of_bind.
  split.
  - intros (d & Hr & Hd). exists d.
    apply (db_names_elem_of _ valid_iter_elements) in Hd. split; [done|].
    unfold db_block in Hr. apply elem_of_cons in Hr as [->|Hr]; [by left|].
    right. unfold coll_rows in Hr.
    apply list_elem_of_fmap in Hr as (c & -> & Hc).
    apply (coll_names_elem_of _ valid_iter_elements) in Hc. eauto.
  - intros (d & Hd & Hr). exists d.
    split; [|by apply (db_names_elem_of _ valid_iter_elements)].
    unfold db_block. apply elem_of_cons.
    destruct Hr as [->|(c & Hc & ->)]; [by left|]. right.
    unfold coll_rows. apply list_elem_of_fmap. exists c. split; [done|].
    by apply (coll_names_elem_of _ valid_iter_elements).
Qed.

End Rows.

(** ** Ordering and completeness of the database rows *)

Lemma blocks_of_bind (source_hashes dest_hashes : Inventory) l :
  blocks_of source_hashes dest_hashes l ≫= (λ b, b.1 :: b.2)
  = l ≫= db_block elements source_hashes dest_hashes.
Proof.
  induction l as [|d l IH]; [done|].
  unfold blocks_of in *. rewrite fmap_cons, !bind_cons, IH. done.
Qed.

Lemma blocks_of_names (source_hashes dest_hashes : Inventory) l :
  Database ∘ fst <$> blocks_of source_hashes dest_hashes l = l.
Proof.
  induction l as [|d l IH]; [done|].
  unfold blocks_of in *. rewrite !fmap_cons, IH. done.
Qed.

(** C4. The database rows of the output name exactly the databases of the
    union of the two key sets, once each and in ascending order; the output
    is the concatenation of blocks, each made of one database row followed
    by all the collection rows of that database, in ascending order of the
    collection name. *)
Theorem database_rows_union_sorted (source_hashes dest_hashes : Inventory) :
  let rows := prepare_comparison_data source_hashes dest_hashes in
  let names := Database <$> filter (λ r, Type_ r = "Database") rows in
  names ≡ₚ elements (dom source_hashes ∪ dom dest_hashes) ∧
  NoDup names ∧
  StronglySorted str_lt names ∧
  ∃ blocks : list (Row * list Row),
    rows = blocks ≫= (λ b, b.1 :: b.2) ∧
    Database ∘ fst <$> blocks = names ∧
    Forall (λ b,
      Type_ b.1 = "Database" ∧
      b.2 = filter (is_coll_row_of (Database b.1)) rows ∧
      StronglySorted str_lt (Collection <$> b.2)) blocks.
Proof.
  intros rows names.
  assert (Hrows : rows = db_names elements source_hashes dest_hashes
                         ≫= db_block elements source_hashes dest_hashes)
    by apply prepare_comparison_data_blocks.
  assert (Hnames : names = db_names elements source_hashes dest_hashes).
  { unfold names. rewrite Hrows. apply filter_Database_blocks. }
  pose proof (db_names_NoDup _ valid_iter_elements source_hashes dest_hashes)
    as Hnd.
  split; [|split; [|split]].
  - rewrite Hnames. apply sorted_perm.
  - by rewrite Hnames.
  - rewrite Hnames. by apply db_names_sorted, valid_iter_elements.
  - exists (blocks_of source_hashes dest_hashes
              (db_names elements source_hashes dest_hashes)).
    split; [by rewrite blocks_of_bind|].
    split; [by rewrite blocks_of_names|].
    unfold blocks_of. apply Forall_fmap, Forall_forall. intros d Hd. simpl.
    split; [done|]. split.
    + rewrite Hrows. symmetry. by apply filter_coll_blocks_in.
    + rewrite coll_rows_Collection.
      by apply coll_names_sorted, valid_iter_elements.
Qed.

(** ** Databases present on one side only *)

Example scenario_B :
  map (λ r, (Type_ r, Database r, Collection r,
             Source_Hash r, Destination_Hash r, Match r))
      (prepare_comparison_data scenario_B_source scenario_B_dest)
  = [("Database", "orders_db", "", "X", "MISSING", "MISSING DB");
     ("Collection", "orders_db", "orders", "a1", "MISSING", "MISSING COLLECTION")].
Proof. vm_compute. reflexivity. Qed.

Lemma collection_rows_of_present source_hashes dest_hashes d :
  is_Some (source_hashes !! d) ∨ is_Some (dest_hashes !! d) →
  collection_rows_of source_hashes dest_hashes d
  = coll_rows elements source_hashes dest_hashes d.
Proof.
  intros Hd. unfold collection_rows_of, prepare_comparison_data.
  rewrite prepare_comparison_data_blocks.
  apply filter_coll_blocks_in.
  - apply db_names_NoDup, valid_iter_elements.
  - apply db_names_elem_of; [apply valid_iter_elements|].
    by rewrite !elem_of_dom.
Qed.

Lemma collection_rows_of_absent source_hashes dest_hashes d :
  source_hashes !! d = None → dest_hashes !! d = None →
  collection_rows_of source_hashes dest_hashes d = [].
Proof.
  intros Hs Hd. unfold collection_rows_of, prepare_comparison_data.
  rewrite prepare_comparison_data_blocks.
  apply filter_coll_blocks_notin.
  rewrite (db_names_elem_of _ valid_iter_elements), !elem_of_dom, Hs, Hd.
  by intros [[? ?]|[? ?]].
Qed.

Lemma coll_row_missing_l d si di sc dc c :
  sc !! c = None → Match (coll_row d si di sc dc c) = "MISSING COLLECTION".
Proof. intros Hc. unfold coll_row. cbv zeta. simpl. by rewrite Hc. Qed.

Lemma coll_row_missing_r d si di sc dc c :
  dc !! c = None → Match (coll_row d si di sc dc c) = "MISSING COLLECTION".
Proof.
  intros Hc. unfold coll_row. cbv zeta. simpl. rewrite Hc. simpl.
  by rewrite orb_true_r.
Qed.

(** C1 (counterexample). With the inventories of scenario B, where the
    database exists on the source side only, the output has a collection row
    for it. *)
Lemma single_sided_collection_rows_emitted :
  ¬ single_sided_without_collection_rows
      scenario_B_source scenario_B_dest "orders_db".
Proof.
  intros [H _].
  assert (Hp : present_in_exactly_one scenario_B_source scenario_B_dest
                 "orders_db") by (left; split; [by eexists|done]).
  specialize (H Hp). vm_compute in H. discriminate H.
Qed.

(** C1 (amended). For a database present in exactly one inventory the
    output has one collection row per collection of the record that exists,
    in ascending order of the name, each classified MISSING COLLECTION; for
    a database present in neither inventory it has none. *)
Theorem single_sided_collection_rows
    (source_hashes dest_hashes : Inventory) (db_name : string) :
  (present_in_exactly_one source_hashes dest_hashes db_name →
   Collection <$> collection_rows_of source_hashes dest_hashes db_name
   = sorted (elements (dom (default ∅ (collections
               (present_record source_hashes dest_hashes db_name)))))
   ∧ Forall (λ r, Match r = "MISSING COLLECTION")
            (collection_rows_of source_hashes dest_hashes db_name))
  ∧ (source_hashes !! db_name = None → dest_hashes !! db_name = None →
     collection_rows_of source_hashes dest_hashes db_name = []).
Proof.
  split; [|apply collection_rows_of_absent].
  intros Hone.
  rewrite collection_rows_of_present by (destruct Hone as [[? _]|[_ ?]]; auto).
  rewrite coll_rows_Collection. unfold coll_names, present_record.
  destruct Hone as [[[si Hs] Hd]|[Hs [di Hd]]].
  - rewrite (collections_of_absent dest_hashes) by done.
    rewrite dom_empty_L, (right_id_L ∅ (∪)).
    split; [by unfold collections_of, info_of; rewrite Hs|].
    unfold coll_rows. apply Forall_fmap, Forall_forall. intros c _.
    apply coll_row_missing_r. by rewrite collections_of_absent.
  - rewrite (collections_of_absent source_hashes) by done.
    rewrite dom_empty_L, (left_id_L ∅ (∪)).
    split; [by rewrite Hs|].
    unfold coll_rows. apply Forall_fmap, Forall_forall. intros c _.
    apply coll_row_missing_l. by rewrite collections_of_absent.
Qed.

(** A database of scenario B: one side only, one collection. *)
Lemma single_sided_collection_rows_witness :
  Collection <$> collection_rows_of scenario_B_source scenario_B_dest "orders_db"
  = sorted (elements (dom (default ∅ (collections
              (present_record scenario_B_source scenario_B_dest "orders_db")))))
  ∧ Forall (λ r, Match r = "MISSING COLLECTION")
           (collection_rows_of scenario_B_source scenario_B_dest "orders_db").
Proof.
  apply (single_sided_collection_rows scenario_B_source scenario_B_dest).
  left. split; [by eexists|reflexivity].
Defined.

(** ** Independence from the iteration order of sets *)

Lemma prepare_comparison_data_iter_canonical iter source_hashes dest_hashes :
  valid_iter iter →
  prepare_comparison_data_iter iter source_hashes dest_hashes
  = prepare_comparison_data source_hashes dest_hashes.
Proof.
  intros Hiter. unfold prepare_comparison_data.
  rewrite !prepare_comparison_data_blocks.
  rewrite (db_names_canonical iter) by done.
  apply list_bind_ext; [|done]. intros d.
  unfold db_block, coll_rows. by rewrite (coll_names_canonical iter).
Qed.

(** C6. Two runs of the reconciliation on the same inventories return the
    same sequence of rows, whatever order the interpreter enumerates the
    name sets in during each run. *)
Theorem prepare_comparison_data_deterministic
    (iter1 iter2 : gset string → list string)
    (source_hashes dest_hashes : Inventory) :
  valid_iter iter1 → valid_iter iter2 →
  prepare_comparison_data_iter iter1 source_hashes dest_hashes
  = prepare_comparison_data_iter iter2 source_hashes dest_hashes.
Proof.
  intros H1 H2. by rewrite !prepare_comparison_data_iter_canonical.
Qed.

(** Scenario A, enumerating the sets forwards and backwards. *)
Lemma prepare_comparison_data_deterministic_witness :
  prepare_comparison_data_iter elements scenario_A_source scenario_A_dest
  = prepare_comparison_data_iter (reverse ∘ elements)
      scenario_A_source scenario_A_dest.
Proof.
  apply prepare_comparison_data_deterministic.
  - intros X. reflexivity.
  - intros X. apply reverse_Permutation.
Defined.

(** ** Classification *)

Example sentinel_rows :
  map (λ r, (Type_ r, Database r, Collection r,
             Source_Hash r, Destination_Hash r, Match r))
      (prepare_comparison_data sentinel_inventory sentinel_inventory)
  = [("Database", "db", "", "X", "X", "MATCH");
     ("Collection", "db", "c", "MISSING", "MISSING", "MISSING COLLECTION")].
Proof. vm_compute. reflexivity. Qed.

Lemma db_digest_info_of hashes d :
  Inventory_wf hashes →
  (db_digest hashes d = None ∧ is_empty (info_of hashes d) = true) ∨
  (∃ h, db_digest hashes d = Some h ∧ md5 (info_of hashes d) = Some h
        ∧ is_empty (info_of hashes d) = false).
Proof.
  intros Hwf. unfold db_digest.
  destruct (hashes !! d) as [i|] eqn:Hd.
  - right. destruct (Hwf _ _ Hd) as [h Hh]. exists h.
    rewrite (info_of_not_empty _ _ i) by done.
    unfold info_of. by rewrite Hd.
  - left. unfold info_of. by rewrite Hd.
Qed.

Lemma db_row_classified source_hashes dest_hashes d :
  Inventory_wf source_hashes → Inventory_wf dest_hashes →
  classified_by_sentinel source_hashes dest_hashes
    (db_row d (info_of source_hashes d) (info_of dest_hashes d)).
Proof.
  intros Hs Hd. unfold classified_by_sentinel, row_digests. simpl.
  destruct (db_digest_info_of source_hashes d Hs) as [[-> ->]|(h1 & -> & -> & ->)];
    destruct (db_digest_info_of dest_hashes d Hd) as [[-> ->]|(h2 & -> & -> & ->)];
    simpl; try (by naive_solver).
  case_bool_decide; naive_solver.
Qed.

Lemma coll_row_classified source_hashes dest_hashes d c :
  classified_by_sentinel source_hashes dest_hashes
    (coll_row d (info_of source_hashes d) (info_of dest_hashes d)
       (collections_of source_hashes d) (collections_of dest_hashes d) c).
Proof.
  unfold classified_by_sentinel, row_digests, absent_or_sentinel. simpl.
  rewrite !coll_digest_collections_of.
  destruct (collections_of source_hashes d !! c) as [h1|];
    destruct (collections_of dest_hashes d !! c) as [h2|]; simpl;
    repeat case_bool_decide; simpl; naive_solver.
Qed.

(** C3 (counterexample). In [sentinel_inventory] the collection ["c"] has
    the same digest on both sides, and its row is not classified MATCH. *)
Lemma sentinel_digest_not_classified_by_presence :
  ¬ ∀ r, r ∈ prepare_comparison_data sentinel_inventory sentinel_inventory →
         classified_by_presence sentinel_inventory sentinel_inventory r.
Proof.
  intros H.
  pose (r := coll_row "db" (info_of sentinel_inventory "db")
               (info_of sentinel_inventory "db")
               (collections_of sentinel_inventory "db")
               (collections_of sentinel_inventory "db") "c").
  assert (Hr : r ∈ prepare_comparison_data sentinel_inventory sentinel_inventory).
  { vm_compute. apply list_elem_of_In. right. left. reflexivity. }
  destruct (H r Hr) as (Hmatch & _ & _).
  assert (Hm : Match r = "MATCH").
  { apply Hmatch. exists "MISSING". vm_compute. done. }
  vm_compute in Hm. discriminate Hm.
Qed.

(** C3 (amended). On inventories whose records carry an aggregate digest, a
    database row is MATCH iff both digests are present and equal, MISMATCH
    iff both are present and differ, MISSING DB iff one is absent; a
    collection row is MISSING COLLECTION iff a digest is absent or is the
    string ["MISSING"], and otherwise MATCH or MISMATCH by equality. *)
Theorem classification_correct
    (source_hashes dest_hashes : Inventory) (r : Row) :
  Inventory_wf source_hashes → Inventory_wf dest_hashes →
  r ∈ prepare_comparison_data source_hashes dest_hashes →
  classified_by_sentinel source_hashes dest_hashes r.
Proof.
  intros Hs Hd Hr.
  apply elem_of_prepare_comparison_data in Hr as (d & _ & [->|(c & _ & ->)]).
  - by apply db_row_classified.
  - apply coll_row_classified.
Qed.

Lemma scenario_A_wf :
  Inventory_wf scenario_A_source ∧ Inventory_wf scenario_A_dest.
Proof.
  split; intros d i Hd; unfold scenario_A_source, scenario_A_dest in Hd;
    apply lookup_singleton_Some in Hd as [<- <-]; by eexists.
Qed.

(** The row of the collection ["items"] of scenario A. *)
Lemma classification_correct_witness :
  classified_by_sentinel scenario_A_source scenario_A_dest
    (coll_row "sales" (info_of scenario_A_source "sales")
       (info_of scenario_A_dest "sales")
       (collections_of scenario_A_source "sales")
       (collections_of scenario_A_dest "sales") "items").
Proof.
  apply classification_correct.
  - apply scenario_A_wf.
  - apply scenario_A_wf.
  - vm_compute. apply list_elem_of_In. right. left. reflexivity.
Defined.

(** C10. A collection that both records list, with the string ["MISSING"] as
    its digest on one side, has a row in the output, and every row for it is
    classified MISSING COLLECTION. *)
Theorem sentinel_digest_missing_collection
    (source_hashes dest_hashes : Inventory) (db_name coll_name : string)
    (source_hash dest_hash : string) :
  coll_digest source_hashes db_name coll_name = Some source_hash →
  coll_digest dest_hashes db_name coll_name = Some dest_hash →
  source_hash = "MISSING" ∨ dest_hash = "MISSING" →
  (∃ r, r ∈ prepare_comparison_data source_hashes dest_hashes
        ∧ Type_ r = "Collection" ∧ Database r = db_name
        ∧ Collection r = coll_name)
  ∧ ∀ r, r ∈ prepare_comparison_data source_hashes dest_hashes →
         Type_ r = "Collection" → Database r = db_name →
         Collection r = coll_name →
         Match r = "MISSING COLLECTION"
         ∧ Source_Hash r = source_hash ∧ Destination_Hash r = dest_hash.
Proof.
  intros Hs Hd Hm. split.
  - exists (coll_row db_name (info_of source_hashes db_name)
              (info_of dest_hashes db_name)
              (collections_of source_hashes db_name)
              (collections_of dest_hashes db_name) coll_name).
    split; [|done].
    apply elem_of_prepare_comparison_data. exists db_name.
    assert (is_Some (source_hashes !! db_name)) as Hin.
    { unfold coll_digest in Hs. by destruct (source_hashes !! db_name). }
    split; [left; by apply elem_of_dom|].
    right. exists coll_name. split; [|done].
    left. apply elem_of_dom_collections_of. by rewrite Hs.
  - intros r Hr Ht Hdb Hc.
    apply elem_of_prepare_comparison_data in Hr as (d & _ & [->|(c & _ & ->)]);
      [done|].
    simpl in Hdb, Hc. subst d c.
    rewrite coll_digest_collections_of in Hs, Hd.
    unfold coll_row. cbv zeta. simpl. rewrite Hs, Hd. simpl.
    split; [|done].
    destruct Hm as [->| ->]; repeat case_bool_decide; done.
Qed.

(** The collection ["c"] of [sentinel_inventory]. *)
Lemma sentinel_digest_missing_collection_witness :
  (∃ r, r ∈ prepare_comparison_data sentinel_inventory sentinel_inventory
        ∧ Type_ r = "Collection" ∧ Database r = "db" ∧ Collection r = "c")
  ∧ ∀ r, r ∈ prepare_comparison_data sentinel_inventory sentinel_inventory →
         Type_ r = "Collection" → Database r = "db" → Collection r = "c" →
         Match r = "MISSING COLLECTION"
         ∧ Source_Hash r = "MISSING" ∧ Destination_Hash r = "MISSING".
Proof.
  apply (sentinel_digest_missing_collection
           sentinel_inventory sentinel_inventory "db" "c" "MISSING" "MISSING").
  - reflexivity.
  - reflexivity.
  - left. reflexivity.
Defined.

(** ** The summary *)

Example contains_examples :
  contains "MISMATCH" "MISMATCH" = true
  ∧ contains "MISSING" "MISSING COLLECTION" = true
  ∧ contains "MISSING" "MISMATCH" = false
  ∧ contains "MISMATCH" "MATCH" = false
  ∧ contains "" "" = true.
Proof. repeat split. Qed.

Example scenario_A_summary :
  summary (prepare_comparison_data scenario_A_source scenario_A_dest)
  = {| total_databases := 1; db_mismatches := 1; missing_dbs := 0;
       total_collections := 2; coll_mismatches := 1; missing_colls := 0;
       overall_status := "FAIL" |}.
Proof. vm_compute. reflexivity. Qed.

Lemma prepare_comparison_data_row_wf source_hashes dest_hashes :
  Forall row_wf (prepare_comparison_data source_hashes dest_hashes).
Proof.
  apply Forall_forall. intros r Hr.
  apply elem_of_prepare_comparison_data in Hr as (d & _ & [->|(c & _ & ->)]).
  - left. split; [done|]. unfold db_row. simpl.
    destruct (_ || _); [by auto|]. case_bool_decide; by auto.
  - right. split; [done|]. unfold coll_row. cbv zeta. simpl.
    destruct (_ || _); [by auto|]. case_bool_decide; by auto.
Qed.

Lemma flagged_contains r :
  row_wf r →
  (contains "MISMATCH" (Match r) = true ↔ Match r = "MISMATCH")
  ∧ (contains "MISSING" (Match r) = true
     ↔ Match r = "MISSING DB" ∨ Match r = "MISSING COLLECTION").
Proof.
  intros [[_ [-> |[-> | ->]]]|[_ [-> |[-> | ->]]]];
    (split; split; intros H);
    try (by vm_compute in H); try (by vm_compute); try done; try (by auto);
    try (by destruct H as [H|H]; discriminate H).
Qed.

Lemma length_filter_zero {A} (P : A → Prop) `{!∀ x, Decision (P x)} (l : list A) :
  length (filter P l) = 0 ↔ Forall (λ x, ¬ P x) l.
Proof.
  induction l as [|x l IH]; [by split; [constructor|]|].
  rewrite filter_cons, Forall_cons. destruct (decide (P x)); simpl.
  - split; [done|]. by intros [? _].
  - rewrite IH. naive_solver.
Qed.

Lemma length_filter_ext {A} (P Q : A → Prop)
    `{!∀ x, Decision (P x)} `{!∀ x, Decision (Q x)} (l : list A) :
  Forall (λ x, P x ↔ Q x) l → length (filter P l) = length (filter Q l).
Proof.
  induction 1 as [|x l Hx _ IH]; [done|].
  rewrite !filter_cons.
  destruct (decide (P x)), (decide (Q x)); simpl; try lia; tauto.
Qed.

(** The counts of the summary are the numbers of rows of each level with
    each classification. *)
Lemma summary_counts comparison_data :
  Forall row_wf comparison_data →
  db_mismatches (summary comparison_data)
  = length (filter (λ r, Type_ r = "Database" ∧ Match r = "MISMATCH")
                   comparison_data)
  ∧ coll_mismatches (summary comparison_data)
    = length (filter (λ r, Type_ r = "Collection" ∧ Match r = "MISMATCH")
                     comparison_data)
  ∧ missing_dbs (summary comparison_data)
    = length (filter (λ r, Type_ r = "Database" ∧ Match r = "MISSING DB")
                     comparison_data)
  ∧ missing_colls (summary comparison_data)
    = length (filter (λ r, Type_ r = "Collection"
                           ∧ Match r = "MISSING COLLECTION") comparison_data).
Proof.
  intros Hwf. unfold summary, count_tagged. simpl.
  repeat split; apply length_filter_ext;
    (eapply Forall_impl; [exact Hwf|]); intros r Hr;
    destruct (flagged_contains r Hr) as [H1 H2]; rewrite ?H1, ?H2;
    destruct Hr as [[Ht Hm]|[Ht Hm]]; rewrite Ht;
    (split; intros [? ?]; split; try done);
    destruct Hm as [Hm|[Hm|Hm]]; rewrite Hm in *; try done; try (by auto);
    match goal with H : _ ∨ _ |- _ => by destruct H end.
Qed.

(** The four counts that decide the overall status add up to the number of
    flagged rows. *)
Lemma flagged_total comparison_data :
  Forall row_wf comparison_data →
  let s := summary comparison_data in
  db_mismatches s + coll_mismatches s + missing_dbs s + missing_colls s
  = length (filter flagged comparison_data).
Proof.
  intros Hwf s. subst s.
  destruct (summary_counts comparison_data Hwf) as (-> & -> & -> & ->).
  induction Hwf as [|r l Hr _ IH]; [done|].
  rewrite !filter_cons.
  destruct Hr as [[Ht Hm]|[Ht Hm]]; destruct Hm as [Hm|[Hm|Hm]];
    repeat case_decide; simpl; try lia;
    exfalso; unfold flagged in *; rewrite ?Ht, ?Hm in *;
    intuition discriminate.
Qed.

(** C5. The overall status is PASS iff no row of either level is classified
    MISMATCH, MISSING DB or MISSING COLLECTION, and FAIL otherwise; the four
    counts behind it are the numbers of such rows in the sequence. *)
Theorem overall_status_pass_iff (comparison_data : list Row) :
  Forall row_wf comparison_data →
  let s := summary comparison_data in
  (overall_status s = "PASS" ↔ length (filter flagged comparison_data) = 0)
  ∧ (overall_status s = "FAIL" ↔ length (filter flagged comparison_data) ≠ 0)
  ∧ db_mismatches s
    = length (filter (λ r, Type_ r = "Database" ∧ Match r = "MISMATCH")
                     comparison_data)
  ∧ coll_mismatches s
    = length (filter (λ r, Type_ r = "Collection" ∧ Match r = "MISMATCH")
                     comparison_data)
  ∧ missing_dbs s
    = length (filter (λ r, Type_ r = "Database" ∧ Match r = "MISSING DB")
                     comparison_data)
  ∧ missing_colls s
    = length (filter (λ r, Type_ r = "Collection"
                           ∧ Match r = "MISSING COLLECTION") comparison_data).
Proof.
  intros Hwf s.
  pose proof (flagged_total comparison_data Hwf) as Htotal.
  split; [|split; [|by apply summary_counts]].
  - unfold s at 1, summary. cbv zeta. simpl.
    cbv zeta in Htotal. rewrite <-Htotal. unfold summary. simpl.
    destruct (Nat.eqb_spec
      (count_tagged "Database" "MISMATCH" comparison_data
       + count_tagged "Collection" "MISMATCH" comparison_data
       + count_tagged "Database" "MISSING" comparison_data
       + count_tagged "Collection" "MISSING" comparison_data) 0) as [Hz|Hnz];
      split; intros H; try done.
  - unfold s at 1, summary. cbv zeta. simpl.
    cbv zeta in Htotal. rewrite <-Htotal. unfold summary. simpl.
    destruct (Nat.eqb_spec
      (count_tagged "Database" "MISMATCH" comparison_data
       + count_tagged "Collection" "MISMATCH" comparison_data
       + count_tagged "Database" "MISSING" comparison_data
       + count_tagged "Collection" "MISSING" comparison_data) 0) as [Hz|Hnz];
      split; intros H; try done.
Qed.

(** The rows of scenario A. *)
Lemma overall_status_pass_iff_witness :
  let comparison_data :=
    prepare_comparison_data scenario_A_source scenario_A_dest in
  let s := summary comparison_data in
  (overall_status s = "PASS" ↔ length (filter flagged comparison_data) = 0)
  ∧ (overall_status s = "FAIL" ↔ length (filter flagged comparison_data) ≠ 0)
  ∧ db_mismatches s
    = length (filter (λ r, Type_ r = "Database" ∧ Match r = "MISMATCH")
                     comparison_data)
  ∧ coll_mismatches s
    = length (filter (λ r, Type_ r = "Collection" ∧ Match r = "MISMATCH")
                     comparison_data)
  ∧ missing_dbs s
    = length (filter (λ r, Type_ r = "Database" ∧ Match r = "MISSING DB")
                     comparison_data)
  ∧ missing_colls s
    = length (filter (λ r, Type_ r = "Collection"
                           ∧ Match r = "MISSING COLLECTION") comparison_data).
Proof.
  apply overall_status_pass_iff, prepare_comparison_data_row_wf.
Defined.

(** ** Column sizing *)

(** The loop over the summary sheet takes no minimum: a cell of 49
    characters would give the width 51. *)
Example summary_adjusted_width_no_cap :
  summary_adjusted_width
    [VStr "0123456789012345678901234567890123456789012345678"] = 51
  ∧ adjusted_width
      [VStr "0123456789012345678901234567890123456789012345678"] = 50.
Proof. vm_compute. done. Qed.

Example scenario_A_widths :
  comparison_widths (prepare_comparison_data scenario_A_source scenario_A_dest)
  = [12; 10; 12; 13; 18; 10; 13; 11; 16; 14]
  ∧ summary_widths "2025-07-24 10:00:00"
      (prepare_comparison_data scenario_A_source scenario_A_dest) = [33; 21].
Proof. vm_compute. done. Qed.

Lemma max_length_foldl (column : list Value) (acc : nat) :
  foldl (λ max_length cell,
           if (max_length <? String.length (str cell))%nat
           then String.length (str cell) else max_length)
        acc column
  = acc `max` longest column.
Proof.
  revert acc. unfold longest.
  induction column as [|cell column IH]; intros acc; csimpl; [lia|].
  rewrite IH. destruct (Nat.ltb_spec acc (String.length (str cell))); lia.
Qed.

(** The loop computes the length of the longest content. *)
Lemma max_length_longest column : max_length column = longest column.
Proof. unfold max_length. rewrite max_length_foldl. lia. Qed.

Lemma pretty_N_go_length (k : nat) : ∀ (x : N) (s : string),
  (x < 10 ^ N.of_nat k)%N →
  String.length (pretty_N_go x s) ≤ String.length s + k.
Proof.
  induction k as [|k IH]; intros x s Hx.
  - assert (x = 0%N) as -> by (simpl in Hx; lia).
    rewrite pretty_N_go_0. lia.
  - destruct (decide (x = 0%N)) as [->|Hne].
    { rewrite pretty_N_go_0. lia. }
    rewrite pretty_N_go_step by lia.
    etrans; [apply IH|simpl; lia].
    rewrite Nat2N.inj_succ, N.pow_succ_r' in Hx.
    apply N.Div0.div_lt_upper_bound. lia.
Qed.

(** A natural number below [10 ^ k] is written with at most [k] digits. *)
Lemma pretty_nat_length (k n : nat) :
  0 < k → (N.of_nat n < 10 ^ N.of_nat k)%N →
  String.length (str (VInt (Z.of_nat n))) ≤ k.
Proof.
  intros Hk Hn. unfold str.
  destruct n as [|n]; [simpl; lia|].
  change (pretty (Z.of_nat (S n))) with (pretty_N_go (N.of_nat (S n)) "").
  by apply (pretty_N_go_length k _ "").
Qed.

Lemma sys_maxsize_digits n :
  (Z.of_nat n ≤ sys_maxsize)%Z → (N.of_nat n < 10 ^ N.of_nat 19)%N.
Proof. unfold sys_maxsize. intros Hn. simpl N.of_nat. lia. Qed.

Lemma count_bounds comparison_data :
  let s := summary comparison_data in
  total_databases s ≤ length comparison_data
  ∧ db_mismatches s ≤ length comparison_data
  ∧ missing_dbs s ≤ length comparison_data
  ∧ total_collections s ≤ length comparison_data
  ∧ coll_mismatches s ≤ length comparison_data
  ∧ missing_colls s ≤ length comparison_data.
Proof.
  unfold summary, count_level, count_tagged. simpl.
  repeat split; apply length_filter.
Qed.

Lemma overall_status_length comparison_data :
  String.length (overall_status (summary comparison_data)) = 4.
Proof. unfold summary. simpl. by destruct (_ =? _)%nat. Qed.

Lemma summary_columns generated_on comparison_data :
  let s := summary comparison_data in
  columns (summary_sheet generated_on comparison_data)
  = [ VStr <$> ["MongoDB Hash Comparison Summary"; "Generated on"; "";
                "Total Databases Compared"; "Database Hash Mismatches";
                "Missing Databases"; ""; "Total Collections Compared";
                "Collection Hash Mismatches"; "Missing Collections"; "";
                "Overall Status"];
      [ VStr ""; VStr generated_on; VStr "";
        VInt (Z.of_nat (total_databases s)); VInt (Z.of_nat (db_mismatches s));
        VInt (Z.of_nat (missing_dbs s)); VStr "";
        VInt (Z.of_nat (total_collections s));
        VInt (Z.of_nat (coll_mismatches s));
        VInt (Z.of_nat (missing_colls s)); VStr "";
        VStr (overall_status s) ] ].
Proof. reflexivity. Qed.

(** No content of the summary sheet is longer than 31 characters. *)
Lemma summary_longest generated_on comparison_data col :
  (Z.of_nat (length comparison_data) ≤ sys_maxsize)%Z →
  String.length generated_on = 19 →
  col ∈ columns (summary_sheet generated_on comparison_data) →
  longest col ≤ 31.
Proof.
  intros Hlen Hgen. rewrite summary_columns. cbv zeta.
  pose proof (count_bounds comparison_data) as Hcount. cbv zeta in Hcount.
  pose proof (overall_status_length comparison_data) as Hstatus.
  assert (Hd : ∀ n, n ≤ length comparison_data →
                    String.length (str (VInt (Z.of_nat n))) ≤ 19).
  { intros n Hn. apply pretty_nat_length; [lia|].
    apply sys_maxsize_digits. lia. }
  revert Hcount Hstatus. generalize (summary comparison_data). intros s.
  intros (H1 & H2 & H3 & H4 & H5 & H6) Hstatus.
  intros [->|[->|[]%elem_of_nil]%elem_of_cons]%elem_of_cons.
  - vm_compute. lia.
  - unfold longest. csimpl. rewrite Hgen, Hstatus.
    pose proof (Hd _ H1). pose proof (Hd _ H2). pose proof (Hd _ H3).
    pose proof (Hd _ H4). pose proof (Hd _ H5). pose proof (Hd _ H6).
    simpl str in *. lia.
Qed.

(** C7. Every column of the comparison sheet and of the summary sheet gets
    the width min(longest content + 2, 50), where the longest content is
    taken over the cells of that column alone.  The run is on a list within
    the size limit of the interpreter and the time stamp has its 19
    characters. *)
Theorem column_widths_capped
    (generated_on : string) (comparison_data : list Row) :
  (Z.of_nat (length comparison_data) ≤ sys_maxsize)%Z →
  String.length generated_on = 19 →
  comparison_widths comparison_data
  = (λ col, (longest col + 2) `min` 50)
    <$> columns (comparison_sheet comparison_data)
  ∧ summary_widths generated_on comparison_data
    = (λ col, (longest col + 2) `min` 50)
      <$> columns (summary_sheet generated_on comparison_data).
Proof.
  intros Hlen Hgen. split.
  - unfold comparison_widths. apply list_fmap_ext. intros _ col _.
    unfold adjusted_width. by rewrite max_length_longest.
  - unfold summary_widths. apply list_fmap_ext. intros j col Hcol.
    unfold summary_adjusted_width. rewrite max_length_longest.
    apply list_elem_of_lookup_2 in Hcol.
    pose proof (summary_longest _ _ _ Hlen Hgen Hcol). lia.
Qed.

(** The report of scenario A. *)
Lemma column_widths_capped_witness :
  let comparison_data :=
    prepare_comparison_data scenario_A_source scenario_A_dest in
  comparison_widths comparison_data
  = (λ col, (longest col + 2) `min` 50)
    <$> columns (comparison_sheet comparison_data)
  ∧ summary_widths "2025-07-24 10:00:00" comparison_data
    = (λ col, (longest col + 2) `min` 50)
      <$> columns (summary_sheet "2025-07-24 10:00:00" comparison_data).
Proof.
  apply column_widths_capped.
  - vm_compute. discriminate.
  - reflexivity.
Defined.

(** ** The inventory collector *)

Lemma hash_info_not_empty client database reply :
  is_empty (hash_info client database reply) = false.
Proof. done. Qed.

Lemma run_db_hash_Ok client database reply :
  command_dbHash client database = Ok reply →
  run_db_hash client database = hash_info client database reply.
Proof. unfold run_db_hash. by intros ->. Qed.

Lemma run_db_hash_Raise client database msg :
  command_dbHash client database = Raise msg →
  run_db_hash client database = empty_dict.
Proof. unfold run_db_hash. by intros ->. Qed.

(** The loop, started from any inventory: a name is bound after the loop iff
    it was bound before or is a listed database whose command succeeded. *)
Lemma collect_loop_lookup client dbs : ∀ (hashes : Inventory) d,
  foldl (λ (hashes : Inventory) db_name,
           let hash_result := run_db_hash client db_name in
           if negb (is_empty hash_result)
           then <[db_name := hash_result]> hashes
           else hashes)
        hashes dbs !! d
  = match command_dbHash client d with
    | Ok reply =>
        if decide (d ∈ dbs) then Some (hash_info client d reply)
        else hashes !! d
    | Raise _ => hashes !! d
    end.
Proof.
  induction dbs as [|db dbs IH]; intros hashes d.
  - simpl foldl. destruct (command_dbHash client d); [|done].
    case_decide as Hin; [|done]. by apply elem_of_nil in Hin.
  - simpl foldl. rewrite IH. cbv zeta. unfold run_db_hash.
    destruct (command_dbHash client d) as [reply|msg] eqn:Hd.
    + destruct (decide (d = db)) as [->|Hne].
      * rewrite Hd. simpl. rewrite lookup_insert_eq.
        rewrite (decide_True (P := db ∈ db :: dbs)) by left.
        by case_decide.
      * destruct (decide (d ∈ dbs)) as [Hin|Hni].
        { by rewrite decide_True by (by right). }
        rewrite decide_False by (by intros [?|?]%elem_of_cons).
        destruct (command_dbHash client db); simpl; [|done].
        by rewrite lookup_insert_ne.
    + destruct (command_dbHash client db) as [reply|msg'] eqn:Hdb; simpl;
        [|done].
      rewrite lookup_insert_ne; [done|]. intros ->. congruence.
Qed.

Lemma collect_hashes_lookup client dbs d :
  collect_hashes client dbs !! d
  = match command_dbHash client d with
    | Ok reply =>
        if decide (d ∈ dbs) then Some (hash_info client d reply) else None
    | Raise _ => None
    end.
Proof.
  unfold collect_hashes. rewrite collect_loop_lookup.
  by rewrite lookup_empty.
Qed.

(** The collector returns inventories whose records are complete. *)
Lemma collect_hashes_wf client dbs : Inventory_wf (collect_hashes client dbs).
Proof.
  intros d i. rewrite collect_hashes_lookup.
  destruct (command_dbHash client d); [|done].
  case_decide; [|done]. intros [= <-]. by eexists.
Qed.

Example failing_client_rows :
  map (λ r, (Type_ r, Database r, Collection r, Match r))
      (prepare_comparison_data
         (collect_all_hashes failing_client healthy_client).1
         (collect_all_hashes failing_client healthy_client).2)
  = [("Database", "audit", "", "MATCH");
     ("Collection", "audit", "logs", "MATCH");
     ("Database", "sales", "", "MISSING DB");
     ("Collection", "sales", "logs", "MISSING COLLECTION")].
Proof. vm_compute. reflexivity. Qed.

(** C8. A database whose hash command raises on the source cluster has no
    entry in the source inventory; every other listed database whose command
    succeeds has its full record; the inventory holds nothing but such
    records; and in the reconciliation of the two inventories the database
    row of the failed database, if the destination has it, is classified
    MISSING DB.  The same holds with the two clusters exchanged. *)
Theorem failed_database_omitted
    (source_client dest_client : Client) (db_name msg : string) :
  command_dbHash source_client db_name = Raise msg
  ∨ command_dbHash dest_client db_name = Raise msg →
  let source_hashes := (collect_all_hashes source_client dest_client).1 in
  let dest_hashes := (collect_all_hashes source_client dest_client).2 in
  (command_dbHash source_client db_name = Raise msg →
   source_hashes !! db_name = None)
  ∧ (command_dbHash dest_client db_name = Raise msg →
     dest_hashes !! db_name = None)
  ∧ (∀ d reply, d ∈ get_non_system_databases source_client →
       command_dbHash source_client d = Ok reply →
       source_hashes !! d = Some (hash_info source_client d reply))
  ∧ (∀ d reply, d ∈ get_non_system_databases dest_client →
       command_dbHash dest_client d = Ok reply →
       dest_hashes !! d = Some (hash_info dest_client d reply))
  ∧ (∀ d info, source_hashes !! d = Some info →
       ∃ reply, command_dbHash source_client d = Ok reply
                ∧ info = hash_info source_client d reply)
  ∧ (∀ d info, dest_hashes !! d = Some info →
       ∃ reply, command_dbHash dest_client d = Ok reply
                ∧ info = hash_info dest_client d reply)
  ∧ (∀ r, r ∈ prepare_comparison_data source_hashes dest_hashes →
       Type_ r = "Database" → Database r = db_name →
       Match r = "MISSING DB").
Proof.
  intros Hfail source_hashes dest_hashes.
  unfold collect_all_hashes in source_hashes, dest_hashes.
  simpl in source_hashes, dest_hashes.
  assert (Hraise : ∀ client dbs, command_dbHash client db_name = Raise msg →
                     collect_hashes client dbs !! db_name = None).
  { intros client dbs H. rewrite collect_hashes_lookup. by rewrite H. }
  assert (Hok : ∀ client dbs d reply, d ∈ dbs →
                  command_dbHash client d = Ok reply →
                  collect_hashes client dbs !! d
                  = Some (hash_info client d reply)).
  { intros client dbs d reply Hin H. rewrite collect_hashes_lookup, H.
    by rewrite decide_True. }
  assert (Honly : ∀ client dbs d info,
                    collect_hashes client dbs !! d = Some info →
                    ∃ reply, command_dbHash client d = Ok reply
                             ∧ info = hash_info client d reply).
  { intros client dbs d info. rewrite collect_hashes_lookup.
    destruct (command_dbHash client d) as [reply|]; [|done].
    case_decide; [|done]. intros [= <-]. by exists reply. }
  repeat split; subst source_hashes dest_hashes; eauto.
  intros r Hr Ht Hdb.
  apply elem_of_prepare_comparison_data in Hr as (d & _ & [->|(c & _ & ->)]);
    [|done].
  simpl in Hdb. subst d. unfold db_row, info_of. simpl.
  destruct Hfail as [H|H]; rewrite (Hraise _ _ H); simpl; [done|].
  by rewrite orb_true_r.
Qed.

(** The database ["sales"] of [failing_client]. *)
Lemma failed_database_omitted_witness :
  (collect_all_hashes failing_client healthy_client).1 !! "sales" = None
  ∧ (collect_all_hashes failing_client healthy_client).1 !! "audit"
    = Some (hash_info failing_client "audit" audit_reply).
Proof.
  pose proof (failed_database_omitted failing_client healthy_client
                "sales" "command failed" (or_introl eq_refl))
    as (H1 & _ & H3 & _).
  split.
  - apply H1. reflexivity.
  - apply H3; [|reflexivity]. vm_compute. apply list_elem_of_In.
    right. left. reflexivity.
Defined.

(** ** The exit status *)

Example failing_run_status :
  overall_status (summary (run_rows failing_run)) = "FAIL"
  ∧ main failing_run = 0%Z.
Proof. vm_compute. done. Qed.

(** C2 (counterexample). The run [failing_run] reports FAIL and exits with
    status zero. *)
Lemma exit_zero_on_fail : ¬ exit_zero_only_on_pass failing_run.
Proof.
  intros H. destruct H as [_ H]; [by vm_compute|].
  vm_compute in H. discriminate H.
Qed.

(** C2 (amended). The exit status is zero exactly when both connection
    strings are set and either the command line only asks for the help, or
    it parses, both clusters are reached, hash collection produced a record
    on at least one side and the workbook is saved; otherwise the status is
    one or two.  The overall status of the report plays no part. *)
Theorem exit_status_zero_iff (env : Environment) :
  (main env = 0%Z ↔
   unset (env_source_uri env) = false
   ∧ unset (env_dest_uri env) = false
   ∧ (command_line env = HelpRequested
      ∨ (command_line env = Parsed
         ∧ collected env
         ∧ ∃ wb, create_excel_report env (run_rows env) = Ok wb)))
  ∧ (main env = 0%Z ∨ main env = 1%Z ∨ main env = 2%Z).
Proof.
  unfold main, run_comparison, connect_to_clusters, collected, run_rows.
  destruct (unset (env_source_uri env)); [split; [split|]; naive_solver|].
  destruct (unset (env_dest_uri env)); [split; [split|]; naive_solver|].
  destruct (command_line env); [|split; [split|]; naive_solver..].
  destruct (clusters env) as [[source_client dest_client]|msg];
    [|split; [split|]; naive_solver].
  cbv zeta.
  set (source_hashes := (collect_all_hashes source_client dest_client).1).
  set (dest_hashes := (collect_all_hashes source_client dest_client).2).
  destruct (bool_decide_reflect (source_hashes = ∅)) as [Hs|Hs];
    destruct (bool_decide_reflect (dest_hashes = ∅)) as [Hd|Hd]; simpl;
    try (split; [split|]; naive_solver);
    destruct (create_excel_report env _) as [wb|msg];
    split; try (by auto); split; try done; try naive_solver.
Qed.

(** ** The reconciliation on the object store *)

Module PyFacts.
Import Py PyRepr.

(** *** Rules for the store operations *)

Lemma wp_ret {A} (a : A) h Φ : Φ a h → wp (mret a) h Φ.
Proof. intros H. by exists a, h. Qed.

Lemma wp_bind {A B} (m : M A) (f : A → M B) h Φ :
  wp m h (λ a h', wp (f a) h' Φ) → wp (m ≫= f) h Φ.
Proof.
  intros (a & h' & Hm & b & h'' & Hf & HΦ). exists b, h''.
  split; [|done]. unfold mbind, M_bind. by rewrite Hm.
Qed.

Lemma wp_mono {A} (m : M A) h (Φ Ψ : A → heap → Prop) :
  (∀ a h', Φ a h' → Ψ a h') → wp m h Φ → wp m h Ψ.
Proof. intros HΦ (a & h' & Hm & H). exists a, h'. auto. Qed.

Lemma wp_alloc o h Φ :
  (∀ l, h !! l = None → Φ (PRef l) (<[l := o]> h)) → wp (alloc o) h Φ.
Proof.
  intros H. exists (PRef (fresh (dom h))), (<[fresh (dom h) := o]> h).
  split; [done|]. apply H. apply not_elem_of_dom, is_fresh.
Qed.

Lemma read_dict_at h v d : dict_at h v d → read_dict v h = Some (d, h).
Proof. intros (l & -> & Hl). unfold read_dict. by rewrite Hl. Qed.

Lemma wp_dict_get h v d key default_ Φ :
  dict_at h v d → Φ (default default_ (d !! key)) h →
  wp (dict_get v key default_) h Φ.
Proof.
  intros Hd H. eexists _, h. split; [|exact H].
  unfold dict_get, mbind, M_bind. by rewrite (read_dict_at h v d).
Qed.

Lemma wp_dict_keys h v d Φ :
  dict_at h v d → Φ (dom d) h → wp (dict_keys v) h Φ.
Proof.
  intros Hd H. eexists _, h. split; [|exact H].
  unfold dict_keys, mbind, M_bind. by rewrite (read_dict_at h v d).
Qed.

Lemma wp_dict_not h v d Φ :
  dict_at h v d → Φ (bool_decide (d = ∅)) h → wp (dict_not v) h Φ.
Proof.
  intros Hd H. eexists _, h. split; [|exact H].
  unfold dict_not, mbind, M_bind. by rewrite (read_dict_at h v d).
Qed.

Lemma wp_py_eq_str h a b Φ :
  Φ (bool_decide (a = b)) h → wp (py_eq (PStr a) (PStr b)) h Φ.
Proof.
  intros H. eexists _, h. split; [done|].
  by rewrite (bool_decide_ext (PStr a = PStr b) (a = b)) by naive_solver.
Qed.

Lemma wp_py_eq_opt h (a b : option string) Φ :
  Φ (bool_decide (a = b)) h →
  wp (py_eq (opt_str PNone a) (opt_str PNone b)) h Φ.
Proof.
  intros H. eexists _, h. split; [by destruct a, b|].
  rewrite (bool_decide_ext _ (a = b)); [done|].
  destruct a, b; naive_solver.
Qed.

Lemma wp_list_append h l vs v Φ :
  h !! l = Some (OList vs) → Φ () (<[l := OList (vs ++ [v])]> h) →
  wp (list_append (PRef l) v) h Φ.
Proof.
  intros Hl H. eexists _, _. split; [|exact H].
  unfold list_append. by rewrite Hl.
Qed.

(** *** The predicates survive the growth of the store *)

Lemma dict_at_mono h h' v d : h ⊆ h' → dict_at h v d → dict_at h' v d.
Proof.
  intros Hsub (l & -> & Hl). exists l. split; [done|].
  by eapply lookup_weaken.
Qed.

Lemma repr_info_mono h h' v info :
  h ⊆ h' → repr_info h v info → repr_info h' v info.
Proof.
  intros Hsub (d & Hd & H1 & H2 & H3 & H4 & H5 & H6 & Hc).
  exists d. split; [by eapply dict_at_mono|].
  do 6 (split; [done|]).
  destruct (collections info); [|done].
  destruct Hc as (vc & Hvc & Hat). exists vc.
  split; [done|]. by eapply dict_at_mono.
Qed.

Lemma repr_inventory_mono h h' v hashes :
  h ⊆ h' → repr_inventory h v hashes → repr_inventory h' v hashes.
Proof.
  intros Hsub (d & Hd & Hdom & Hinfo).
  exists d. split; [by eapply dict_at_mono|]. split; [done|].
  intros k info Hk. destruct (Hinfo k info Hk) as (vi & Hvi & Hr).
  exists vi. split; [done|]. by eapply repr_info_mono.
Qed.

Lemma rows_at_mono h h' vs rows :
  h ⊆ h' → rows_at h vs rows → rows_at h' vs rows.
Proof.
  intros Hsub Hrows. unfold rows_at. eapply Forall2_impl; [exact Hrows|].
  intros v r. by apply dict_at_mono.
Qed.

(** The empty dictionary represents the empty record. *)
Lemma repr_info_empty h v : dict_at h v ∅ → repr_info h v empty_dict.
Proof.
  intros Hd. exists ∅. split; [done|]. simpl.
  repeat split; try apply lookup_empty.
  intros k [x Hx]. by rewrite lookup_empty in Hx.
Qed.

(** [not info] on a represented record. *)
Lemma repr_info_is_empty h v info :
  repr_info h v info →
  ∃ d, dict_at h v d ∧ bool_decide (d = ∅) = is_empty info.
Proof.
  intros (d & Hd & H1 & H2 & H3 & H4 & H5 & Hkeys & Hc).
  exists d. split; [done|].
  destruct (is_empty info) eqn:He.
  - apply bool_decide_eq_true. apply is_empty_spec in He. subst info.
    simpl in *. apply map_empty. intros k.
    destruct (d !! k) as [x|] eqn:Hk; [|done].
    assert (Hin : k ∈ ["database"; "host"; "collections"; "md5";
                       "timeMillis"; "timestamp"]) by (apply Hkeys; eauto).
    repeat (apply elem_of_cons in Hin as [->|Hin]; [congruence|]).
    by apply elem_of_nil in Hin.
  - apply bool_decide_eq_false. intros ->.
    rewrite lookup_empty in H1, H2, H3, H4, H5.
    assert (collections info = None) as Hcn.
    { destruct (collections info); [|done].
      destruct Hc as (vc & Hvc & _). by rewrite lookup_empty in Hvc. }
    destruct info as [a b c e f g]. simpl in *. subst c.
    destruct a, b, e, f, g; simpl in *; try done.
Qed.

(** *** The loops *)

Lemma default_PStr (a : string) (o : option string) :
  default (PStr a) (PStr <$> o) = PStr (default a o).
Proof. by destruct o. Qed.

Lemma default_PInt (a : Z) (o : option Z) :
  default (PInt a) (PInt <$> o) = PInt (default a o).
Proof. by destruct o. Qed.

Lemma repr_info_host h v info :
  repr_info h v info →
  ∃ d, dict_at h v d
       ∧ default (PStr "N/A") (d !! "host") = PStr (default "N/A" (host info))
       ∧ default (PStr "MISSING") (d !! "md5")
         = PStr (default "MISSING" (md5 info))
       ∧ default PNone (d !! "md5") = opt_str PNone (md5 info)
       ∧ default (PInt 0) (d !! "timeMillis")
         = PInt (default 0%Z (timeMillis info)).
Proof.
  intros (d & Hd & _ & H2 & H3 & H4 & _). exists d. split; [done|].
  rewrite H2, H3, H4. unfold opt_str.
  by rewrite !default_PStr, default_PInt.
Qed.

(** [hashes.get(db_name, {})] returns a reference to the record of
    [db_name], or to the new empty dictionary. *)
Lemma repr_inventory_get h v hashes db_name ve :
  repr_inventory h v hashes → dict_at h ve ∅ →
  ∃ d, dict_at h v d
       ∧ repr_info h (default ve (d !! db_name)) (info_of hashes db_name).
Proof.
  intros (d & Hd & Hnone & Hinfo) He. exists d. split; [done|].
  unfold info_of. destruct (hashes !! db_name) as [info|] eqn:Hk.
  - destruct (Hinfo _ _ Hk) as (vi & -> & Hr). done.
  - apply Hnone in Hk. rewrite Hk. simpl. by apply repr_info_empty.
Qed.

(** [info.get('collections', {})] returns a reference to the collection
    mapping of the record, or to the new empty dictionary. *)
Lemma repr_info_collections h v info ve :
  repr_info h v info → dict_at h ve ∅ →
  ∃ d, dict_at h v d
       ∧ dict_at h (default ve (d !! "collections"))
                 (PStr <$> default ∅ (collections info)).
Proof.
  intros (d & Hd & _ & _ & _ & _ & _ & _ & Hc) He. exists d. split; [done|].
  destruct (collections info) as [colls|].
  - destruct Hc as (vc & -> & Hvc). done.
  - rewrite Hc. simpl. by rewrite fmap_empty.
Qed.

Lemma repr_inventory_dom h v hashes :
  repr_inventory h v hashes → ∃ d, dict_at h v d ∧ dom d = dom hashes.
Proof.
  intros (d & Hd & Hnone & _). exists d. split; [done|].
  apply set_eq. intros k. rewrite !elem_of_dom, <-!not_eq_None_Some.
  by rewrite Hnone.
Qed.

Section Loops.

(** The location of the list [comparison_data]. *)
Variable lc : loc.

(** The effect of an append of a new row dictionary. *)
Lemma list_state_append h vs rows l r :
  list_state lc h vs rows → h !! l = None →
  let h' := <[lc := OList (vs ++ [PRef l])]> (<[l := ODict (encode_row r)]> h) in
  delete lc h ⊆ delete lc h' ∧ list_state lc h' (vs ++ [PRef l]) (rows ++ [r]).
Proof.
  intros [Hlc Hrows] Hl h'.
  assert (l ≠ lc) as Hne by (intros ->; congruence).
  assert (Heq : delete lc h' = <[l := ODict (encode_row r)]> (delete lc h)).
  { unfold h'. rewrite delete_insert_eq. by rewrite delete_insert_ne. }
  assert (Hsub : delete lc h ⊆ delete lc h').
  { rewrite Heq. apply insert_subseteq. by rewrite lookup_delete_ne. }
  split; [done|]. split.
  - unfold h'. by rewrite lookup_insert_eq.
  - apply Forall2_app; [by eapply rows_at_mono|].
    constructor; [|constructor]. exists l. split; [done|].
    rewrite Heq. by rewrite lookup_insert_eq.
Qed.

Lemma wp_collection_body h vs rows db_name source_info dest_info
    vsi vdi vsc vdc (sc dc : gmap string string) coll_name :
  list_state lc h vs rows →
  repr_info (delete lc h) vsi source_info →
  repr_info (delete lc h) vdi dest_info →
  dict_at (delete lc h) vsc (PStr <$> sc) →
  dict_at (delete lc h) vdc (PStr <$> dc) →
  wp (collection_body (PRef lc) db_name vsi vdi vsc vdc coll_name) h
     (λ _ h', delete lc h ⊆ delete lc h'
              ∧ ∃ vs', list_state lc h' vs'
                         (rows ++ [coll_row db_name source_info dest_info
                                     sc dc coll_name])).
Proof.
  intros Hlist Hsi Hdi Hsc Hdc.
  assert (Hsub : delete lc h ⊆ h) by apply delete_subseteq.
  apply (repr_info_mono _ h) in Hsi, Hdi; [|done..].
  apply (dict_at_mono _ h) in Hsc, Hdc; [|done..].
  destruct (repr_info_host _ _ _ Hsi) as (dsi & Hdsi & Hsh & _).
  destruct (repr_info_host _ _ _ Hdi) as (ddi & Hddi & Hdh & _).
  unfold collection_body.
  apply wp_bind, (wp_dict_get _ _ _ _ _ _ Hsc).
  apply wp_bind, (wp_dict_get _ _ _ _ _ _ Hdc).
  rewrite !lookup_fmap, !default_PStr.
  apply wp_bind, wp_py_eq_str. apply wp_bind, wp_py_eq_str.
  set (source_hash := default "MISSING" (sc !! coll_name)).
  set (dest_hash := default "MISSING" (dc !! coll_name)).
  assert (Hmatch : ∀ Φ,
    Φ (PStr (Match (coll_row db_name source_info dest_info sc dc coll_name))) h →
    wp (if bool_decide (source_hash = "MISSING")
           || bool_decide (dest_hash = "MISSING")
        then mret (PStr "MISSING COLLECTION")
        else same ← py_eq (PStr source_hash) (PStr dest_hash);
             mret (PStr (if same : bool then "MATCH" else "MISMATCH"))) h Φ).
  { intros Φ. unfold coll_row. cbv zeta. simpl.
    fold source_hash dest_hash.
    destruct (bool_decide (source_hash = "MISSING")
              || bool_decide (dest_hash = "MISSING")).
    - apply wp_ret.
    - intros H. apply wp_bind, wp_py_eq_str, wp_ret.
      by destruct (bool_decide (source_hash = dest_hash)). }
  apply wp_bind, Hmatch.
  apply wp_bind, (wp_dict_get _ _ _ _ _ _ Hdsi). rewrite Hsh.
  apply wp_bind, (wp_dict_get _ _ _ _ _ _ Hddi). rewrite Hdh.
  apply wp_bind, wp_alloc. intros l Hl.
  destruct Hlist as [Hlc Hrows].
  eapply wp_list_append.
  { rewrite lookup_insert_ne; [done|]. intros ->. congruence. }
  destruct (list_state_append h vs rows l
              (coll_row db_name source_info dest_info sc dc coll_name))
    as [Hsub' Hlist']; [done..|].
  split; [exact Hsub'|]. eexists. exact Hlist'.
Qed.

Lemma wp_collection_loop db_name source_info dest_info vsi vdi vsc vdc
    (sc dc : gmap string string) (names : list string) : ∀ h vs rows,
  list_state lc h vs rows →
  repr_info (delete lc h) vsi source_info →
  repr_info (delete lc h) vdi dest_info →
  dict_at (delete lc h) vsc (PStr <$> sc) →
  dict_at (delete lc h) vdc (PStr <$> dc) →
  wp (for_each names
        (collection_body (PRef lc) db_name vsi vdi vsc vdc)) h
     (λ _ h', delete lc h ⊆ delete lc h'
              ∧ ∃ vs', list_state lc h' vs'
                         (rows ++ (coll_row db_name source_info dest_info sc dc
                                   <$> names))).
Proof.
  induction names as [|c names IH]; intros h vs rows Hlist Hsi Hdi Hsc Hdc.
  - apply wp_ret. split; [done|]. exists vs. by rewrite app_nil_r.
  - simpl for_each. apply wp_bind.
    eapply wp_mono;
      [|by apply (wp_collection_body h vs rows db_name source_info dest_info)].
    intros _ h1 (Hsub1 & vs1 & Hlist1). simpl.
    eapply wp_mono; [|apply (IH h1 vs1 _ Hlist1)].
    + intros _ h2 (Hsub2 & vs2 & Hlist2). split; [by etrans|].
      exists vs2. rewrite <-app_assoc in Hlist2. exact Hlist2.
    + by eapply repr_info_mono.
    + by eapply repr_info_mono.
    + by eapply dict_at_mono.
    + by eapply dict_at_mono.
Qed.

(** The effect of the creation of a dictionary. *)
Lemma alloc_dict_frame h vs rows l d :
  list_state lc h vs rows → h !! l = None →
  let h' := <[l := ODict d]> h in
  delete lc h ⊆ delete lc h' ∧ list_state lc h' vs rows
  ∧ dict_at (delete lc h') (PRef l) d.
Proof.
  intros [Hlc Hrows] Hl h'.
  assert (l ≠ lc) as Hne by (intros ->; congruence).
  assert (Heq : delete lc h' = <[l := ODict d]> (delete lc h)).
  { unfold h'. by rewrite delete_insert_ne. }
  assert (Hsub : delete lc h ⊆ delete lc h').
  { rewrite Heq. apply insert_subseteq. by rewrite lookup_delete_ne. }
  split; [done|]. split; [split|].
  - unfold h'. by rewrite lookup_insert_ne.
  - by eapply rows_at_mono.
  - exists l. split; [done|]. rewrite Heq. by rewrite lookup_insert_eq.
Qed.

Lemma wp_alloc_dict h vs rows d Φ :
  list_state lc h vs rows →
  (∀ v h', delete lc h ⊆ delete lc h' → list_state lc h' vs rows →
           dict_at (delete lc h') v d → Φ v h') →
  wp (alloc (ODict d)) h Φ.
Proof.
  intros Hlist H. apply wp_alloc. intros l Hl.
  destruct (alloc_dict_frame h vs rows l d Hlist Hl) as (? & ? & ?).
  by apply H.
Qed.

Lemma dict_at_delete h v d : dict_at (delete lc h) v d → dict_at h v d.
Proof. apply dict_at_mono, delete_subseteq. Qed.

Lemma wp_database_body h vs rows vS vD
    (source_hashes dest_hashes : Inventory) db_name :
  list_state lc h vs rows →
  repr_inventory (delete lc h) vS source_hashes →
  repr_inventory (delete lc h) vD dest_hashes →
  wp (database_body (PRef lc) vS vD db_name) h
     (λ _ h', delete lc h ⊆ delete lc h'
              ∧ ∃ vs', list_state lc h' vs'
                         (rows ++ db_block elements source_hashes dest_hashes
                                    db_name)).
Proof.
  intros Hlist HS HD. unfold database_body.
  set (source_info := info_of source_hashes db_name).
  set (dest_info := info_of dest_hashes db_name).
  (* source_info = source_hashes.get(db_name, {}) *)
  apply wp_bind. eapply wp_alloc_dict; [exact Hlist|].
  intros e1 h1 Hsub1 Hlist1 He1.
  apply (repr_inventory_mono _ _ _ _ Hsub1) in HS, HD.
  destruct (repr_inventory_get _ _ _ db_name _ HS He1) as (dS & HdS & Hsi).
  apply wp_bind, (wp_dict_get _ _ _ _ _ _ (dict_at_delete _ _ _ HdS)).
  fold source_info in Hsi. set (vsi := default e1 (dS !! db_name)) in *.
  (* dest_info = dest_hashes.get(db_name, {}) *)
  apply wp_bind. eapply wp_alloc_dict; [exact Hlist1|].
  intros e2 h2 Hsub2 Hlist2 He2.
  apply (repr_inventory_mono _ _ _ _ Hsub2) in HD.
  apply (repr_info_mono _ _ _ _ Hsub2) in Hsi.
  destruct (repr_inventory_get _ _ _ db_name _ HD He2) as (dD & HdD & Hdi).
  apply wp_bind, (wp_dict_get _ _ _ _ _ _ (dict_at_delete _ _ _ HdD)).
  fold dest_info in Hdi. set (vdi := default e2 (dD !! db_name)) in *.
  (* the fields of the row *)
  destruct (repr_info_host _ _ _ Hsi) as (dsi & Hdsi & Hsh & Hsm & Hsn & Hst).
  destruct (repr_info_host _ _ _ Hdi) as (ddi & Hddi & Hdh & Hdm & Hdn & Hdt).
  apply dict_at_delete in Hdsi, Hddi.
  destruct (repr_info_is_empty _ _ _ Hsi) as (dsi' & Hdsi' & Hse).
  destruct (repr_info_is_empty _ _ _ Hdi) as (ddi' & Hddi' & Hde).
  apply dict_at_delete in Hdsi', Hddi'.
  apply wp_bind, (wp_dict_get _ _ _ _ _ _ Hdsi). rewrite Hsm.
  apply wp_bind, (wp_dict_get _ _ _ _ _ _ Hddi). rewrite Hdm.
  apply wp_bind, (wp_dict_not _ _ _ _ Hdsi'). rewrite Hse.
  apply wp_bind, (wp_dict_not _ _ _ _ Hddi'). rewrite Hde.
  assert (Hmatch : ∀ Φ,
    Φ (PStr (Match (db_row db_name source_info dest_info))) h2 →
    wp (if is_empty source_info || is_empty dest_info
        then mret (PStr "MISSING DB")
        else a ← dict_get vsi "md5" PNone;
             b ← dict_get vdi "md5" PNone;
             same ← py_eq a b;
             mret (PStr (if same : bool then "MATCH" else "MISMATCH"))) h2 Φ).
  { intros Φ. unfold db_row. simpl.
    destruct (is_empty source_info || is_empty dest_info).
    - apply wp_ret.
    - intros H.
      apply wp_bind, (wp_dict_get _ _ _ _ _ _ Hdsi). rewrite Hsn.
      apply wp_bind, (wp_dict_get _ _ _ _ _ _ Hddi). rewrite Hdn.
      apply wp_bind, wp_py_eq_opt, wp_ret.
      by destruct (bool_decide (md5 source_info = md5 dest_info)). }
  apply wp_bind, Hmatch.
  apply wp_bind, (wp_dict_get _ _ _ _ _ _ Hdsi). rewrite Hsh.
  apply wp_bind, (wp_dict_get _ _ _ _ _ _ Hddi). rewrite Hdh.
  apply wp_bind, (wp_dict_get _ _ _ _ _ _ Hdsi). rewrite Hst.
  apply wp_bind, (wp_dict_get _ _ _ _ _ _ Hddi). rewrite Hdt.
  (* comparison_data.append(db_row) *)
  apply wp_bind, wp_alloc. intros l Hl.
  apply wp_bind. eapply wp_list_append.
  { rewrite lookup_insert_ne; [apply Hlist2|]. intros ->.
    destruct Hlist2 as [? _]. congruence. }
  destruct (list_state_append h2 vs rows l
              (db_row db_name source_info dest_info) Hlist2 Hl)
    as [Hsub3 Hlist3].
  match goal with |- wp _ ?h _ => set (h3 := h) in * end.
  change (delete lc h2 ⊆ delete lc h3) in Hsub3.
  apply (repr_info_mono _ _ _ _ Hsub3) in Hsi, Hdi.
  clear Hdsi Hddi Hdsi' Hddi' Hmatch.
  (* the two collection mappings *)
  apply wp_bind. eapply wp_alloc_dict; [exact Hlist3|].
  intros e3 h4 Hsub4 Hlist4 He3.
  apply (repr_info_mono _ _ _ _ Hsub4) in Hsi, Hdi.
  destruct (repr_info_collections _ _ _ _ Hsi He3) as (dsi2 & Hdsi2 & Hsc).
  apply wp_bind, (wp_dict_get _ _ _ _ _ _ (dict_at_delete _ _ _ Hdsi2)).
  set (vsc := default e3 (dsi2 !! "collections")) in *.
  apply wp_bind. eapply wp_alloc_dict; [exact Hlist4|].
  intros e4 h5 Hsub5 Hlist5 He4.
  apply (repr_info_mono _ _ _ _ Hsub5) in Hsi, Hdi.
  apply (dict_at_mono _ _ _ _ Hsub5) in Hsc.
  destruct (repr_info_collections _ _ _ _ Hdi He4) as (ddi2 & Hddi2 & Hdc).
  apply wp_bind, (wp_dict_get _ _ _ _ _ _ (dict_at_delete _ _ _ Hddi2)).
  set (vdc := default e4 (ddi2 !! "collections")) in *.
  apply wp_bind, (wp_dict_keys _ _ _ _ (dict_at_delete _ _ _ Hsc)).
  apply wp_bind, (wp_dict_keys _ _ _ _ (dict_at_delete _ _ _ Hdc)).
  rewrite !dom_fmap_L.
  (* the loop over the collection names *)
  eapply wp_mono;
    [|exact (wp_collection_loop db_name source_info dest_info vsi vdi vsc vdc
               _ _ _ h5 _ _ Hlist5 Hsi Hdi Hsc Hdc)].
  intros _ h6 (Hsub6 & vs6 & Hlist6). split.
  - repeat (etrans; [eassumption|]). done.
  - exists vs6. rewrite <-app_assoc in Hlist6. exact Hlist6.
Qed.

Lemma wp_database_loop vS vD (source_hashes dest_hashes : Inventory)
    (names : list string) : ∀ h vs rows,
  list_state lc h vs rows →
  repr_inventory (delete lc h) vS source_hashes →
  repr_inventory (delete lc h) vD dest_hashes →
  wp (for_each names (database_body (PRef lc) vS vD)) h
     (λ _ h', delete lc h ⊆ delete lc h'
              ∧ ∃ vs', list_state lc h' vs'
                         (rows ++ (names ≫= db_block elements source_hashes
                                              dest_hashes))).
Proof.
  induction names as [|d names IH]; intros h vs rows Hlist HS HD.
  - apply wp_ret. split; [done|]. exists vs. by rewrite app_nil_r.
  - simpl for_each. apply wp_bind.
    eapply wp_mono; [|exact (wp_database_body h vs rows vS vD _ _ d Hlist HS HD)].
    intros _ h1 (Hsub1 & vs1 & Hlist1). simpl.
    eapply wp_mono;
      [|exact (IH h1 vs1 _ Hlist1 (repr_inventory_mono _ _ _ _ Hsub1 HS)
                 (repr_inventory_mono _ _ _ _ Hsub1 HD))].
    intros _ h2 (Hsub2 & vs2 & Hlist2). split; [by etrans|].
    exists vs2. rewrite <-app_assoc in Hlist2. exact Hlist2.
Qed.

End Loops.

End PyFacts.

Import PyRepr PyFacts.

(** The function on the store computes the rows of the reconciliation and
    leaves every object that was in the store as it was. *)
Lemma wp_prepare_comparison_data (h : Py.heap) (vS vD : Py.val)
    (source_hashes dest_hashes : Inventory) :
  repr_inventory h vS source_hashes →
  repr_inventory h vD dest_hashes →
  wp (Py.prepare_comparison_data vS vD) h
     (λ v h', h ⊆ h'
              ∧ repr_rows h' v
                  (prepare_comparison_data source_hashes dest_hashes)).
Proof.
  intros HS HD. unfold Py.prepare_comparison_data.
  apply wp_bind, wp_alloc. intros lc Hlc.
  set (h1 := <[lc := Py.OList []]> h).
  assert (Hdel : delete lc h1 = h).
  { unfold h1. rewrite delete_insert_eq. by apply delete_id. }
  assert (Hlist : list_state lc h1 [] []).
  { split; [apply lookup_insert_eq|constructor]. }
  assert (Hsub : h ⊆ h1) by (by apply insert_subseteq).
  destruct (repr_inventory_dom _ _ _ (repr_inventory_mono _ _ _ _ Hsub HS))
    as (dS & HdS & HdomS).
  destruct (repr_inventory_dom _ _ _ (repr_inventory_mono _ _ _ _ Hsub HD))
    as (dD & HdD & HdomD).
  apply wp_bind, (wp_dict_keys _ _ _ _ HdS).
  apply wp_bind, (wp_dict_keys _ _ _ _ HdD).
  rewrite HdomS, HdomD. rewrite <-Hdel in HS, HD.
  apply wp_bind.
  eapply wp_mono;
    [|exact (wp_database_loop lc vS vD _ _ _ h1 [] [] Hlist HS HD)].
  intros _ h2 (Hsub2 & vs2 & Hlc2 & Hrows2). apply wp_ret. split.
  - rewrite <-Hdel. etrans; [exact Hsub2|]. apply delete_subseteq.
  - exists lc, vs2. split; [done|]. split; [done|].
    unfold prepare_comparison_data. rewrite prepare_comparison_data_blocks.
    eapply rows_at_mono; [apply delete_subseteq|]. exact Hrows2.
Qed.

Lemma scenario_C_repr : repr_inventory scenario_C_store (Py.PRef 0) scenario_C.
Proof.
  exists {[ "audit" := Py.PRef 1 ]}. split; [by exists 0|]. split.
  - intros k. unfold scenario_C. by rewrite !lookup_singleton_None.
  - intros k info Hk. unfold scenario_C in Hk.
    apply lookup_singleton_Some in Hk as [<- <-].
    exists (Py.PRef 1). split; [done|].
    exists audit_dict. split; [by exists 1|].
    do 5 (split; [done|]). split.
    + intros k Hk. apply elem_of_dom in Hk. unfold audit_dict in Hk.
      rewrite !dom_insert_L, dom_singleton_L in Hk. set_solver.
    + simpl. exists (Py.PRef 2). split; [done|]. by exists 2.
Qed.

(** The same dictionary object passed as source and as destination. *)
Example scenario_C_run :
  match Py.prepare_comparison_data (Py.PRef 0) (Py.PRef 0) scenario_C_store with
  | Some (Py.PRef l, h') =>
      match h' !! l with
      | Some (Py.OList vs) =>
          Some (omap (λ v, match v with
                           | Py.PRef r =>
                               match h' !! r with
                               | Some (Py.ODict d) => d !! "Match"
                               | _ => None
                               end
                           | _ => None
                           end) vs)
      | _ => None
      end
  | _ => None
  end = Some [Py.PStr "MATCH"; Py.PStr "MATCH"].
Proof. vm_compute. reflexivity. Qed.

(** C9. Run on a store in which two references denote the inventories, the
    function returns without error; every object that was in the store is
    unchanged afterwards, so the two references still denote the same
    inventories; and the result is a reference to a list with the rows of
    the reconciliation. *)
Theorem prepare_comparison_data_preserves_inputs
    (h : Py.heap) (vS vD : Py.val) (source_hashes dest_hashes : Inventory) :
  repr_inventory h vS source_hashes →
  repr_inventory h vD dest_hashes →
  ∃ v h', Py.prepare_comparison_data vS vD h = Some (v, h')
    ∧ (∀ l o, h !! l = Some o → h' !! l = Some o)
    ∧ repr_inventory h' vS source_hashes
    ∧ repr_inventory h' vD dest_hashes
    ∧ repr_rows h' v (prepare_comparison_data source_hashes dest_hashes).
Proof.
  intros HS HD.
  destruct (wp_prepare_comparison_data h vS vD _ _ HS HD)
    as (v & h' & Hrun & Hsub & Hrows).
  exists v, h'. split; [done|]. split; [|split; [|split]].
  - intros l o Hl. by eapply lookup_weaken.
  - by eapply repr_inventory_mono.
  - by eapply repr_inventory_mono.
  - done.
Qed.

(** The store of scenario C, with the one inventory as both arguments. *)
Lemma prepare_comparison_data_preserves_inputs_witness :
  ∃ v h', Py.prepare_comparison_data (Py.PRef 0) (Py.PRef 0) scenario_C_store
          = Some (v, h')
    ∧ (∀ l o, scenario_C_store !! l = Some o → h' !! l = Some o)
    ∧ repr_inventory h' (Py.PRef 0) scenario_C
    ∧ repr_inventory h' (Py.PRef 0) scenario_C
    ∧ repr_rows h' v (prepare_comparison_data scenario_C scenario_C).
Proof.
  apply prepare_comparison_data_preserves_inputs; apply scenario_C_repr.
Defined.

(** * Part IV: further properties *)

(** ** Further properties of the reconciliation *)

(** X1. For a database that at least one inventory has, the collection rows
    of the output name exactly the collections with a digest on at least one
    side, once each, in ascending order. *)
Theorem collection_rows_union
    (source_hashes dest_hashes : Inventory) (db_name : string) :
  is_Some (source_hashes !! db_name) ∨ is_Some (dest_hashes !! db_name) →
  let names :=
    Collection <$> collection_rows_of source_hashes dest_hashes db_name in
  (∀ c, c ∈ names ↔ is_Some (coll_digest source_hashes db_name c)
                     ∨ is_Some (coll_digest dest_hashes db_name c))
  ∧ NoDup names
  ∧ StronglySorted str_lt names.
Proof.
  intros Hd names. unfold names.
  rewrite collection_rows_of_present by done.
  rewrite coll_rows_Collection.
  pose proof (coll_names_sorted elements valid_iter_elements
                source_hashes dest_hashes db_name) as Hsorted.
  split; [|split; [|done]].
  - intros c. rewrite (coll_names_elem_of _ valid_iter_elements).
    by rewrite !elem_of_dom_collections_of.
  - unfold coll_names. apply sorted_NoDup, NoDup_elements.
Qed.

Lemma collection_rows_union_witness :
  let names :=
    Collection <$> collection_rows_of scenario_A_source scenario_A_dest "sales" in
  (∀ c, c ∈ names ↔ is_Some (coll_digest scenario_A_source "sales" c)
                     ∨ is_Some (coll_digest scenario_A_dest "sales" c))
  ∧ NoDup names
  ∧ StronglySorted str_lt names.
Proof.
  apply collection_rows_union. left. by eexists.
Defined.

Lemma prepare_comparison_data_names source_hashes dest_hashes :
  Database <$> filter (λ r, Type_ r = "Database")
                 (prepare_comparison_data source_hashes dest_hashes)
  = db_names elements source_hashes dest_hashes.
Proof.
  unfold prepare_comparison_data. rewrite prepare_comparison_data_blocks.
  apply filter_Database_blocks.
Qed.

Lemma prepare_comparison_data_nil_iff (source_hashes dest_hashes : Inventory) :
  prepare_comparison_data source_hashes dest_hashes = []
  ↔ source_hashes = ∅ ∧ dest_hashes = ∅.
Proof.
  split.
  - intros Hnil.
    pose proof (prepare_comparison_data_names source_hashes dest_hashes) as Hn.
    rewrite Hnil in Hn. simpl in Hn.
    assert (Hempty : dom source_hashes ∪ dom dest_hashes = (∅ : gset string)).
    { apply set_eq. intros d. split; [|by intros ?%elem_of_empty].
      intros Hd%elem_of_union.
      apply (db_names_elem_of elements valid_iter_elements) in Hd.
      rewrite <-Hn in Hd. by apply elem_of_nil in Hd. }
    apply empty_union_L in Hempty as [Hs Hd].
    by apply dom_empty_inv_L in Hs, Hd.
  - intros [-> ->]. reflexivity.
Qed.

(** X2. The output is empty exactly when both inventories are empty. *)
Theorem prepare_comparison_data_nil (source_hashes dest_hashes : Inventory) :
  prepare_comparison_data source_hashes dest_hashes = []
  ↔ source_hashes = ∅ ∧ dest_hashes = ∅.
Proof. apply prepare_comparison_data_nil_iff. Qed.

Lemma swap_db_row d si di : swap_row (db_row d si di) = db_row d di si.
Proof.
  unfold swap_row, db_row. simpl. f_equal.
  rewrite (orb_comm (is_empty si)).
  by rewrite (bool_decide_ext (md5 si = md5 di) (md5 di = md5 si)).
Qed.

Lemma swap_coll_row d si di sc dc c :
  swap_row (coll_row d si di sc dc c) = coll_row d di si dc sc c.
Proof.
  unfold swap_row, coll_row. cbv zeta. simpl. f_equal.
  rewrite (orb_comm (bool_decide (default "MISSING" (sc !! c) = "MISSING"))).
  by rewrite (bool_decide_ext (default "MISSING" (sc !! c)
                               = default "MISSING" (dc !! c))
                              (default "MISSING" (dc !! c)
                               = default "MISSING" (sc !! c))).
Qed.

Lemma swap_db_block source_hashes dest_hashes d :
  db_block elements dest_hashes source_hashes d
  = swap_row <$> db_block elements source_hashes dest_hashes d.
Proof.
  unfold db_block, coll_rows, coll_names.
  rewrite fmap_cons, swap_db_row. f_equal.
  rewrite <-list_fmap_compose.
  rewrite (comm_L (∪) (dom (collections_of dest_hashes d))).
  apply list_fmap_ext. intros i c _. simpl. by rewrite swap_coll_row.
Qed.

(** X3. Exchanging the two inventories exchanges the source and the
    destination columns of every row and changes nothing else: the rows, their
    order and their classifications are the same. *)
Theorem prepare_comparison_data_swap (source_hashes dest_hashes : Inventory) :
  prepare_comparison_data dest_hashes source_hashes
  = swap_row <$> prepare_comparison_data source_hashes dest_hashes.
Proof.
  unfold prepare_comparison_data. rewrite !prepare_comparison_data_blocks.
  unfold db_names. rewrite (comm_L (∪) (dom dest_hashes)).
  induction (sorted (elements (dom source_hashes ∪ dom dest_hashes)))
    as [|d l IH]; [done|].
  rewrite !bind_cons, fmap_app, IH. by rewrite swap_db_block.
Qed.

(** The overall status says PASS iff no row is flagged. *)
Lemma overall_status_PASS_Forall comparison_data :
  Forall row_wf comparison_data →
  overall_status (summary comparison_data) = "PASS"
  ↔ Forall (λ r, ¬ flagged r) comparison_data.
Proof.
  intros Hwf. rewrite <-length_filter_zero.
  pose proof (flagged_total comparison_data Hwf) as Htotal.
  cbv zeta in Htotal. rewrite <-Htotal. unfold summary. simpl.
  destruct (Nat.eqb_spec
    (count_tagged "Database" "MISMATCH" comparison_data
     + count_tagged "Collection" "MISMATCH" comparison_data
     + count_tagged "Database" "MISSING" comparison_data
     + count_tagged "Collection" "MISSING" comparison_data) 0) as [Hz|Hnz];
    split; intros H; done.
Qed.

Lemma self_db_row_flagged d info :
  flagged (db_row d info info) ↔ is_empty info = true.
Proof.
  unfold flagged, db_row. simpl. rewrite orb_diag.
  destruct (is_empty info); [naive_solver|].
  rewrite bool_decide_eq_true_2 by done. naive_solver.
Qed.

Lemma self_coll_row_flagged d info (colls : gmap string string) c :
  flagged (coll_row d info info colls colls c)
  ↔ default "MISSING" (colls !! c) = "MISSING".
Proof.
  unfold flagged, coll_row. cbv zeta. simpl. rewrite orb_diag.
  case_bool_decide as Hm; [naive_solver|].
  rewrite bool_decide_eq_true_2 by done. naive_solver.
Qed.

(** X4. An inventory compared with itself gives the overall status PASS iff
    none of its records is the empty dictionary and none of its collection
    digests is the string ["MISSING"]. *)
Theorem self_comparison_pass (hashes : Inventory) :
  overall_status (summary (prepare_comparison_data hashes hashes)) = "PASS"
  ↔ self_clean hashes.
Proof.
  rewrite overall_status_PASS_Forall by apply prepare_comparison_data_row_wf.
  rewrite Forall_forall. split.
  - intros Hall d info Hd. split.
    + destruct (is_empty info) eqn:He; [|done]. exfalso.
      apply (Hall (db_row d (info_of hashes d) (info_of hashes d))).
      * apply elem_of_prepare_comparison_data. exists d.
        split; [left; by apply elem_of_dom|by left].
      * apply self_db_row_flagged. unfold info_of. by rewrite Hd.
    + intros colls c h Hcolls Hc ->.
      assert (Hco : collections_of hashes d = colls).
      { unfold collections_of, info_of. rewrite Hd. simpl. by rewrite Hcolls. }
      apply (Hall (coll_row d (info_of hashes d) (info_of hashes d)
                     (collections_of hashes d) (collections_of hashes d) c)).
      * apply elem_of_prepare_comparison_data. exists d.
        split; [left; by apply elem_of_dom|]. right. exists c.
        split; [|done]. left. rewrite Hco. by apply elem_of_dom.
      * apply self_coll_row_flagged. by rewrite Hco, Hc.
  - intros Hclean r Hr.
    apply elem_of_prepare_comparison_data in Hr
      as (d & Hd & [->|(c & Hc & ->)]).
    + rewrite self_db_row_flagged.
      assert (is_Some (hashes !! d)) as [info Hinfo]
        by (destruct Hd as [Hd|Hd]; by apply elem_of_dom in Hd).
      unfold info_of. rewrite Hinfo. simpl.
      destruct (Hclean d info Hinfo) as [-> _]. done.
    + rewrite self_coll_row_flagged.
      assert (is_Some (collections_of hashes d !! c)) as [h Hh]
        by (destruct Hc as [Hc|Hc]; by apply elem_of_dom in Hc).
      rewrite Hh. simpl.
      unfold collections_of, info_of in Hh.
      destruct (hashes !! d) as [info|] eqn:Hinfo; simpl in Hh; [|done].
      destruct (collections info) as [colls|] eqn:Hcolls; simpl in Hh; [|done].
      destruct (Hclean d info Hinfo) as [_ Hne]. by eapply Hne.
Qed.

(** X5. Every row of a database that the destination inventory lacks shows
    the digest ["MISSING"] and the host ["N/A"] on the destination side; its
    database row is MISSING DB with the elapsed time 0, its collection rows
    are MISSING COLLECTION.  The same holds for the source side. *)
Theorem missing_side_display
    (source_hashes dest_hashes : Inventory) (db_name : string) (r : Row) :
  r ∈ prepare_comparison_data source_hashes dest_hashes →
  Database r = db_name →
  (dest_hashes !! db_name = None →
   Destination_Hash r = "MISSING" ∧ Dest_Host r = "N/A"
   ∧ (Type_ r = "Database" →
      Match r = "MISSING DB" ∧ Dest_Time_ms r = VInt 0)
   ∧ (Type_ r = "Collection" → Match r = "MISSING COLLECTION"))
  ∧ (source_hashes !! db_name = None →
     Source_Hash r = "MISSING" ∧ Source_Host r = "N/A"
     ∧ (Type_ r = "Database" →
        Match r = "MISSING DB" ∧ Source_Time_ms r = VInt 0)
     ∧ (Type_ r = "Collection" → Match r = "MISSING COLLECTION")).
Proof.
  intros Hr Hdb.
  apply elem_of_prepare_comparison_data in Hr as (d & _ & [->|(c & _ & ->)]);
    simpl in Hdb; subst d.
  - split; intros Hnone; unfold db_row, info_of; rewrite Hnone; simpl;
      rewrite ?orb_true_r; repeat split; done.
  - split; intros Hnone.
    + assert (Hc : collections_of dest_hashes db_name !! c = None)
        by (by rewrite collections_of_absent).
      rewrite (coll_row_missing_r _ _ _ _ _ _ Hc).
      unfold coll_row, info_of. cbv zeta. simpl. rewrite Hc, Hnone. done.
    + assert (Hc : collections_of source_hashes db_name !! c = None)
        by (by rewrite collections_of_absent).
      rewrite (coll_row_missing_l _ _ _ _ _ _ Hc).
      unfold coll_row, info_of. cbv zeta. simpl. rewrite Hc, Hnone. done.
Qed.

Lemma missing_side_display_witness :
  let r := db_row "orders_db" (info_of scenario_B_source "orders_db")
             (info_of scenario_B_dest "orders_db") in
  (scenario_B_dest !! "orders_db" = None →
   Destination_Hash r = "MISSING" ∧ Dest_Host r = "N/A"
   ∧ (Type_ r = "Database" →
      Match r = "MISSING DB" ∧ Dest_Time_ms r = VInt 0)
   ∧ (Type_ r = "Collection" → Match r = "MISSING COLLECTION"))
  ∧ (scenario_B_source !! "orders_db" = None →
     Source_Hash r = "MISSING" ∧ Source_Host r = "N/A"
     ∧ (Type_ r = "Database" →
        Match r = "MISSING DB" ∧ Source_Time_ms r = VInt 0)
     ∧ (Type_ r = "Collection" → Match r = "MISSING COLLECTION")).
Proof.
  apply (missing_side_display scenario_B_source scenario_B_dest "orders_db").
  - vm_compute. apply list_elem_of_In. left. reflexivity.
  - reflexivity.
Defined.

(** X6. On inventories whose records carry an aggregate digest, the two
    digests shown on a row agree with its classification: equal on a MATCH
    row, different on a MISMATCH row, and ["MISSING"] on at least one side of
    a MISSING DB or MISSING COLLECTION row. *)
Theorem displayed_digests_consistent
    (source_hashes dest_hashes : Inventory) (r : Row) :
  Inventory_wf source_hashes → Inventory_wf dest_hashes →
  r ∈ prepare_comparison_data source_hashes dest_hashes →
  (Match r = "MATCH" → Source_Hash r = Destination_Hash r)
  ∧ (Match r = "MISMATCH" → Source_Hash r ≠ Destination_Hash r)
  ∧ (Match r = "MISSING DB" ∨ Match r = "MISSING COLLECTION" →
     Source_Hash r = "MISSING" ∨ Destination_Hash r = "MISSING").
Proof.
  intros Hs Hd Hr.
  apply elem_of_prepare_comparison_data in Hr as (d & _ & [->|(c & _ & ->)]).
  - unfold db_row. simpl.
    destruct (db_digest_info_of source_hashes d Hs)
      as [[_ Hes]|(h1 & _ & Hm1 & Hes)];
      destruct (db_digest_info_of dest_hashes d Hd)
        as [[_ Hed]|(h2 & _ & Hm2 & Hed)]; rewrite Hes, Hed; simpl.
    + apply is_empty_spec in Hes. rewrite Hes. simpl. naive_solver.
    + apply is_empty_spec in Hes. rewrite Hes. simpl. naive_solver.
    + apply is_empty_spec in Hed. rewrite Hed. simpl. naive_solver.
    + rewrite Hm1, Hm2. simpl. case_bool_decide; naive_solver.
  - unfold coll_row. cbv zeta. simpl.
    repeat case_bool_decide; simpl; naive_solver.
Qed.

Lemma displayed_digests_consistent_witness :
  let r := coll_row "sales" (info_of scenario_A_source "sales")
             (info_of scenario_A_dest "sales")
             (collections_of scenario_A_source "sales")
             (collections_of scenario_A_dest "sales") "items" in
  (Match r = "MATCH" → Source_Hash r = Destination_Hash r)
  ∧ (Match r = "MISMATCH" → Source_Hash r ≠ Destination_Hash r)
  ∧ (Match r = "MISSING DB" ∨ Match r = "MISSING COLLECTION" →
     Source_Hash r = "MISSING" ∨ Destination_Hash r = "MISSING").
Proof.
  apply (displayed_digests_consistent scenario_A_source scenario_A_dest).
  - apply scenario_A_wf.
  - apply scenario_A_wf.
  - vm_compute. apply list_elem_of_In. right. left. reflexivity.
Defined.

(** ** Further properties of the summary *)

Lemma count_level_app level l1 l2 :
  count_level level (l1 ++ l2) = count_level level l1 + count_level level l2.
Proof. unfold count_level. by rewrite filter_app, length_app. Qed.

Lemma count_level_block source_hashes dest_hashes d :
  count_level "Database" (db_block elements source_hashes dest_hashes d) = 1
  ∧ count_level "Collection" (db_block elements source_hashes dest_hashes d)
    = size (dom (collections_of source_hashes d)
            ∪ dom (collections_of dest_hashes d)).
Proof.
  unfold count_level. split.
  - by rewrite filter_Database_block.
  - unfold db_block. rewrite filter_cons_False by done.
    rewrite filter_all.
    + unfold coll_rows, coll_names.
      by rewrite length_fmap, sorted_perm.
    + apply Forall_forall. intros r Hr. by apply coll_rows_Type in Hr as [? _].
Qed.

Lemma count_level_blocks source_hashes dest_hashes l :
  count_level "Database" (l ≫= db_block elements source_hashes dest_hashes)
  = length l
  ∧ count_level "Collection" (l ≫= db_block elements source_hashes dest_hashes)
    = sum_list_with (λ d, size (dom (collections_of source_hashes d)
                                ∪ dom (collections_of dest_hashes d))) l.
Proof.
  induction l as [|d l [IH1 IH2]]; [done|].
  rewrite bind_cons, !count_level_app, IH1, IH2.
  destruct (count_level_block source_hashes dest_hashes d) as [-> ->]. done.
Qed.

(** Every well-formed row is counted at exactly one level, and the rows
    counted as mismatching or missing are among those of their level. *)
Lemma level_counts comparison_data :
  Forall row_wf comparison_data →
  let s := summary comparison_data in
  total_databases s + total_collections s = length comparison_data
  ∧ db_mismatches s + missing_dbs s ≤ total_databases s
  ∧ coll_mismatches s + missing_colls s ≤ total_collections s.
Proof.
  intros Hwf s. subst s.
  destruct (summary_counts comparison_data Hwf) as (-> & -> & -> & ->).
  unfold summary, count_level. simpl.
  induction Hwf as [|r l Hr _ IH]; [simpl; lia|].
  rewrite !filter_cons.
  destruct Hr as [[Ht Hm]|[Ht Hm]]; destruct Hm as [Hm|[Hm|Hm]];
    repeat case_decide; simpl in *; try lia;
    exfalso; rewrite ?Ht, ?Hm in *; intuition discriminate.
Qed.

(** X7. In the summary of a reconciliation, the number of databases compared
    is the number of distinct database names of the two inventories, the
    number of collections compared is the sum over these databases of the
    number of distinct collection names of the two records, and the output
    has one row for each of them. *)
Theorem summary_totals (source_hashes dest_hashes : Inventory) :
  let rows := prepare_comparison_data source_hashes dest_hashes in
  total_databases (summary rows) = size (dom source_hashes ∪ dom dest_hashes)
  ∧ total_collections (summary rows)
    = sum_list_with
        (λ d, size (dom (collections_of source_hashes d)
                    ∪ dom (collections_of dest_hashes d)))
        (elements (dom source_hashes ∪ dom dest_hashes))
  ∧ length rows = total_databases (summary rows)
                  + total_collections (summary rows).
Proof.
  intros rows.
  pose proof (level_counts rows
                (prepare_comparison_data_row_wf source_hashes dest_hashes))
    as (Hlen & _). cbv zeta in Hlen.
  split; [|split; [|done]]; unfold summary; simpl; unfold rows,
    prepare_comparison_data; rewrite prepare_comparison_data_blocks.
  - rewrite (proj1 (count_level_blocks _ _ _)).
    unfold db_names. by rewrite sorted_perm.
  - rewrite (proj2 (count_level_blocks _ _ _)).
    unfold db_names. by rewrite sorted_perm.
Qed.

(** X8. For rows as the reconciliation writes them, the two totals of the
    summary add up to the number of rows, and at each level the rows counted
    as mismatches and as missing are disjoint parts of the total. *)
Theorem summary_counts_partition (comparison_data : list Row) :
  Forall row_wf comparison_data →
  let s := summary comparison_data in
  total_databases s + total_collections s = length comparison_data
  ∧ db_mismatches s + missing_dbs s ≤ total_databases s
  ∧ coll_mismatches s + missing_colls s ≤ total_collections s.
Proof. apply level_counts. Qed.

Lemma summary_counts_partition_witness :
  let s := summary (prepare_comparison_data scenario_A_source scenario_A_dest) in
  total_databases s + total_collections s
  = length (prepare_comparison_data scenario_A_source scenario_A_dest)
  ∧ db_mismatches s + missing_dbs s ≤ total_databases s
  ∧ coll_mismatches s + missing_colls s ≤ total_collections s.
Proof.
  apply summary_counts_partition, prepare_comparison_data_row_wf.
Defined.

(** ** Further properties of the report *)

Lemma row_fill_row_cells r :
  row_wf r →
  row_fill (row_cells r)
  = Some (if bool_decide (Match r = "MISMATCH") then mismatch_fill
          else if bool_decide (Match r = "MATCH") then match_fill
          else missing_fill).
Proof.
  unfold row_fill. simpl.
  intros [[_ [-> |[-> | ->]]]|[_ [-> |[-> | ->]]]]; reflexivity.
Qed.

(** X9. Every cell of a data row of the comparison sheet gets the same fill,
    and the fill is decided by the classification of the row: the red one for
    MISMATCH, the orange one for MISSING DB and MISSING COLLECTION, the green
    one for MATCH. *)
Theorem conditional_fills_by_classification (comparison_data : list Row) :
  Forall row_wf comparison_data →
  Forall2 (λ r fills,
             length fills = 10
             ∧ ∀ f, f ∈ fills →
                 (f = Some mismatch_fill ↔ Match r = "MISMATCH")
                 ∧ (f = Some missing_fill ↔
                    Match r = "MISSING DB" ∨ Match r = "MISSING COLLECTION")
                 ∧ (f = Some match_fill ↔ Match r = "MATCH"))
          comparison_data
          (conditional_fills (comparison_sheet comparison_data)).
Proof.
  intros Hwf. unfold conditional_fills.
  assert (Hdata : drop 1 (comparison_sheet comparison_data)
                  = row_cells <$> comparison_data)
    by (by destruct comparison_data).
  rewrite Hdata, <-list_fmap_compose.
  apply Forall2_fmap_r, Forall_Forall2_diag.
  eapply Forall_impl; [exact Hwf|]. intros r Hr. simpl.
  split; [done|]. intros f Hf.
  repeat (apply elem_of_cons in Hf as [->|Hf]);
    try (by apply elem_of_nil in Hf);
    rewrite (row_fill_row_cells r Hr);
    destruct Hr as [[_ [Hm|[Hm|Hm]]]|[_ [Hm|[Hm|Hm]]]]; rewrite Hm; simpl;
    (split; [|split]); split; intros H; try done;
    try (by destruct H as [H|H]; discriminate H); by auto.
Qed.

Lemma conditional_fills_by_classification_witness :
  Forall2 (λ r fills,
             length fills = 10
             ∧ ∀ f, f ∈ fills →
                 (f = Some mismatch_fill ↔ Match r = "MISMATCH")
                 ∧ (f = Some missing_fill ↔
                    Match r = "MISSING DB" ∨ Match r = "MISSING COLLECTION")
                 ∧ (f = Some match_fill ↔ Match r = "MATCH"))
          (prepare_comparison_data scenario_A_source scenario_A_dest)
          (conditional_fills
             (comparison_sheet
                (prepare_comparison_data scenario_A_source scenario_A_dest))).
Proof.
  apply conditional_fills_by_classification, prepare_comparison_data_row_wf.
Defined.







(** X12. Whatever the rows, the two columns of the summary sheet get the
    widths 33 and 21: the longest label has 31 characters, and no value is
    longer than the time stamp of 19 characters. *)
Theorem summary_widths_constant
    (generated_on : string) (comparison_data : list Row) :
  (Z.of_nat (length comparison_data) ≤ sys_maxsize)%Z →
  String.length generated_on = 19 →
  summary_widths generated_on comparison_data = [33; 21].
Proof.
  intros Hlen Hgen. unfold summary_widths. rewrite summary_columns. cbv zeta.
  pose proof (count_bounds comparison_data) as Hcount. cbv zeta in Hcount.
  pose proof (overall_status_length comparison_data) as Hstatus.
  assert (Hd : ∀ n, n ≤ length comparison_data →
                    String.length (str (VInt (Z.of_nat n))) ≤ 19).
  { intros n Hn. apply pretty_nat_length; [lia|].
    apply sys_maxsize_digits. lia. }
  revert Hcount Hstatus. generalize (summary comparison_data). intros s.
  intros (H1 & H2 & H3 & H4 & H5 & H6) Hstatus.
  rewrite !fmap_cons, fmap_nil.
  apply (f_equal2 cons); [by vm_compute|]. apply (f_equal2 cons); [|done].
  unfold summary_adjusted_width. rewrite max_length_longest.
  unfold longest. csimpl. rewrite Hgen, Hstatus.
  pose proof (Hd _ H1). pose proof (Hd _ H2). pose proof (Hd _ H3).
  pose proof (Hd _ H4). pose proof (Hd _ H5). pose proof (Hd _ H6).
  simpl str in *. lia.
Qed.

Lemma summary_widths_constant_witness :
  summary_widths "2025-07-24 10:00:00"
    (prepare_comparison_data scenario_A_source scenario_A_dest) = [33; 21].
Proof.
  apply summary_widths_constant.
  - vm_compute. discriminate.
  - reflexivity.
Defined.

(** X13. After the styling of the summary sheet, a row whose label is a
    non-empty string without a colon has its label in a bold font without a
    size of its own.  This holds for the first row too, so the size 14 given
    to the title is replaced. *)
Theorem summary_label_fonts_bold
    (sheet : list (list Value)) (i : nat) (row : list Value) (label : string) :
  sheet !! i = Some row →
  row !! 0 = Some (VStr label) →
  label ≠ "" →
  contains ":" label = false →
  summary_label_fonts sheet !! i
  = Some {| font_bold := true; font_size := None |}.
Proof.
  intros Hrow Hlabel Hne Hcolon. unfold summary_label_fonts. cbv zeta.
  rewrite lookup_zip_with, Hrow. simpl.
  assert (i < length sheet) as Hi by (by eapply lookup_lt_Some).
  destruct (lookup_lt_is_Some_2
              (<[0:={| font_bold := true; font_size := Some 14 |}]>
                 (replicate (length sheet) default_font)) i) as [font ->].
  { by rewrite length_insert, length_replicate. }
  simpl. rewrite Hlabel. simpl. rewrite Hcolon.
  rewrite (bool_decide_eq_false_2 (label = "")) by done.
  rewrite (bool_decide_eq_false_2 (VStr label = VStr "")) by congruence.
  done.
Qed.

(** The title of the summary sheet. *)
Lemma summary_label_fonts_bold_witness :
  summary_label_fonts
    (summary_sheet "2025-07-24 10:00:00"
       (prepare_comparison_data scenario_A_source scenario_A_dest)) !! 0
  = Some {| font_bold := true; font_size := None |}.
Proof.
  eapply (summary_label_fonts_bold _ 0 _ "MongoDB Hash Comparison Summary").
  - reflexivity.
  - reflexivity.
  - discriminate.
  - reflexivity.
Defined.

(** ** Further properties of the collector *)

Lemma elem_of_system_dbs d :
  d ∈ system_dbs ↔ d = "admin" ∨ d = "local" ∨ d = "config".
Proof. unfold system_dbs. set_solver. Qed.

(** X14. The databases to hash are the listed names other than ["admin"],
    ["local"] and ["config"], in the order of the listing and as often as
    listed; when the listing raises there is none. *)
Theorem get_non_system_databases_spec (client : Client) :
  (∀ d, d ∈ get_non_system_databases client ↔
        ∃ all_dbs, list_database_names client = Ok all_dbs ∧ d ∈ all_dbs
                   ∧ d ≠ "admin" ∧ d ≠ "local" ∧ d ≠ "config")
  ∧ (∀ all_dbs, list_database_names client = Ok all_dbs →
       get_non_system_databases client `sublist_of` all_dbs
       ∧ ∀ d, d ≠ "admin" → d ≠ "local" → d ≠ "config" →
              length (filter (d =.) (get_non_system_databases client))
              = length (filter (d =.) all_dbs))
  ∧ (∀ msg, list_database_names client = Raise msg →
       get_non_system_databases client = []).
Proof.
  unfold get_non_system_databases.
  destruct (list_database_names client) as [all_dbs|msg].
  - split; [|split; [|done]].
    + intros d. rewrite list_elem_of_filter, elem_of_system_dbs. split.
      * intros [Hns Hd]. exists all_dbs. naive_solver.
      * intros (l & [= <-] & Hd & ? & ? & ?). naive_solver.
    + intros l [= <-]. split; [apply sublist_filter|].
      intros d H1 H2 H3. rewrite list_filter_filter.
      apply length_filter_ext, Forall_forall. intros x _.
      rewrite elem_of_system_dbs. naive_solver.
  - split; [|split; [done|by intros]].
    intros d. split; [by intros ?%elem_of_nil|]. by intros (l & ? & _).
Qed.

Lemma collect_hashes_is_Some client dbs d :
  is_Some (collect_hashes client dbs !! d)
  ↔ d ∈ dbs ∧ ∃ reply, command_dbHash client d = Ok reply.
Proof.
  rewrite collect_hashes_lookup.
  destruct (command_dbHash client d) as [reply|msg].
  - case_decide; split; naive_solver.
  - split; [by intros [x Hx]|]. by intros (_ & reply & ?).
Qed.

(** X15. An inventory returned by the collector has an entry for a database
    iff the database is listed, is not a system database and its hash command
    succeeded; hence no row of the reconciliation of two collected
    inventories names ["admin"], ["local"] or ["config"]. *)
Theorem collected_inventory_domain (source_client dest_client : Client) :
  let source_hashes := (collect_all_hashes source_client dest_client).1 in
  let dest_hashes := (collect_all_hashes source_client dest_client).2 in
  (∀ d, is_Some (source_hashes !! d) ↔
        d ∈ get_non_system_databases source_client
        ∧ ∃ reply, command_dbHash source_client d = Ok reply)
  ∧ (∀ d, is_Some (dest_hashes !! d) ↔
          d ∈ get_non_system_databases dest_client
          ∧ ∃ reply, command_dbHash dest_client d = Ok reply)
  ∧ ∀ r, r ∈ prepare_comparison_data source_hashes dest_hashes →
         Database r ≠ "admin" ∧ Database r ≠ "local" ∧ Database r ≠ "config".
Proof.
  intros source_hashes dest_hashes.
  unfold collect_all_hashes in source_hashes, dest_hashes.
  simpl in source_hashes, dest_hashes.
  split; [apply collect_hashes_is_Some|].
  split; [apply collect_hashes_is_Some|].
  assert (Hns : ∀ client d, d ∈ get_non_system_databases client →
                  d ≠ "admin" ∧ d ≠ "local" ∧ d ≠ "config").
  { intros client d. unfold get_non_system_databases.
    destruct (list_database_names client); [|by intros ?%elem_of_nil].
    rewrite list_elem_of_filter, elem_of_system_dbs. naive_solver. }
  intros r Hr.
  assert (Hd : Database r ∈ dom source_hashes ∨ Database r ∈ dom dest_hashes).
  { apply elem_of_prepare_comparison_data in Hr
      as (d & Hd & [->|(c & _ & ->)]); exact Hd. }
  rewrite !elem_of_dom in Hd. unfold source_hashes, dest_hashes in Hd.
  rewrite !collect_hashes_is_Some in Hd.
  destruct Hd as [[Hd _]|[Hd _]]; by eapply Hns.
Qed.

(** X16. The database row of a database hashed on both clusters shows the
    [md5], [host] and [timeMillis] fields of the two replies, with [""],
    ["unknown"] and [0] for a field that a reply lacks, and is MATCH iff the
    two digests so read are equal; two replies without [md5] therefore
    match. *)
Theorem database_row_from_replies
    (source_client dest_client : Client) (db_name : string)
    (source_reply dest_reply : DbHashReply) (r : Row) :
  db_name ∈ get_non_system_databases source_client →
  db_name ∈ get_non_system_databases dest_client →
  command_dbHash source_client db_name = Ok source_reply →
  command_dbHash dest_client db_name = Ok dest_reply →
  r ∈ prepare_comparison_data
        (collect_all_hashes source_client dest_client).1
        (collect_all_hashes source_client dest_client).2 →
  Type_ r = "Database" → Database r = db_name →
  Source_Hash r = default "" (reply_md5 source_reply)
  ∧ Destination_Hash r = default "" (reply_md5 dest_reply)
  ∧ Source_Host r = default "unknown" (reply_host source_reply)
  ∧ Dest_Host r = default "unknown" (reply_host dest_reply)
  ∧ Source_Time_ms r = VInt (default 0%Z (reply_timeMillis source_reply))
  ∧ Dest_Time_ms r = VInt (default 0%Z (reply_timeMillis dest_reply))
  ∧ (Match r = "MATCH" ↔
     default "" (reply_md5 source_reply) = default "" (reply_md5 dest_reply))
  ∧ (Match r = "MISMATCH" ↔
     default "" (reply_md5 source_reply) ≠ default "" (reply_md5 dest_reply)).
Proof.
  intros Hs Hd Hrs Hrd Hr Ht Hdb.
  apply elem_of_prepare_comparison_data in Hr as (d & _ & [->|(c & _ & ->)]);
    [|done].
  simpl in Hdb. subst d. unfold collect_all_hashes, info_of. simpl.
  rewrite !collect_hashes_lookup, Hrs, Hrd.
  rewrite !decide_True by done. simpl.
  repeat (split; [done|]).
  case_bool_decide as Heq.
  - injection Heq as Heq. split; split; intros H; try done.
  - assert (default "" (reply_md5 source_reply)
            ≠ default "" (reply_md5 dest_reply)) as Hne by congruence.
    split; split; intros H; try done.
Qed.

Lemma database_row_from_replies_witness :
  let r := db_row "audit"
             (info_of (collect_all_hashes failing_client healthy_client).1 "audit")
             (info_of (collect_all_hashes failing_client healthy_client).2 "audit") in
  Source_Hash r = default "" (reply_md5 audit_reply)
  ∧ Destination_Hash r = default "" (reply_md5 audit_reply)
  ∧ Source_Host r = default "unknown" (reply_host audit_reply)
  ∧ Dest_Host r = default "unknown" (reply_host audit_reply)
  ∧ Source_Time_ms r = VInt (default 0%Z (reply_timeMillis audit_reply))
  ∧ Dest_Time_ms r = VInt (default 0%Z (reply_timeMillis audit_reply))
  ∧ (Match r = "MATCH" ↔
     default "" (reply_md5 audit_reply) = default "" (reply_md5 audit_reply))
  ∧ (Match r = "MISMATCH" ↔
     default "" (reply_md5 audit_reply) ≠ default "" (reply_md5 audit_reply)).
Proof.
  apply (database_row_from_replies failing_client healthy_client "audit").
  - vm_compute. apply list_elem_of_In. right. left. reflexivity.
  - vm_compute. apply list_elem_of_In. right. left. reflexivity.
  - reflexivity.
  - reflexivity.
  - vm_compute. apply list_elem_of_In. left. reflexivity.
  - reflexivity.
  - reflexivity.
Defined.

(** X17. When the listing of the databases raises on the source cluster, the
    source inventory is empty and every row of the reconciliation is reported
    as missing on the source side: the database rows MISSING DB, the
    collection rows MISSING COLLECTION, each with the source digest
    ["MISSING"]. *)
Theorem listing_failure_all_missing
    (source_client dest_client : Client) (msg : string) :
  list_database_names source_client = Raise msg →
  let source_hashes := (collect_all_hashes source_client dest_client).1 in
  let dest_hashes := (collect_all_hashes source_client dest_client).2 in
  source_hashes = ∅
  ∧ ∀ r, r ∈ prepare_comparison_data source_hashes dest_hashes →
         Source_Hash r = "MISSING"
         ∧ (Type_ r = "Database" → Match r = "MISSING DB")
         ∧ (Type_ r = "Collection" → Match r = "MISSING COLLECTION").
Proof.
  intros Hlist source_hashes dest_hashes.
  assert (Hs : source_hashes = ∅).
  { unfold source_hashes, collect_all_hashes, get_non_system_databases.
    simpl. by rewrite Hlist. }
  split; [done|]. rewrite Hs. intros r Hr.
  apply elem_of_prepare_comparison_data in Hr as (d & _ & [->|(c & _ & ->)]).
  - unfold db_row, info_of. rewrite lookup_empty. simpl. done.
  - unfold coll_row, collections_of, info_of. cbv zeta.
    rewrite !lookup_empty. simpl. rewrite lookup_empty. simpl. done.
Qed.

(** A cluster whose listing raises. *)
Lemma listing_failure_all_missing_witness :
  (collect_all_hashes
     {| list_database_names := Raise "not authorized";
        command_dbHash := command_dbHash healthy_client;
        now_isoformat := now_isoformat healthy_client |}
     healthy_client).1 = ∅.
Proof.
  eapply (listing_failure_all_missing _ healthy_client "not authorized").
  reflexivity.
Defined.

(** ** Further properties of the run *)

Example split_examples :
  split "@" "mongodb://user:pw@host:27017/db"
  = ["mongodb://user:pw"; "host:27017/db"]
  ∧ split "@" "a@" = ["a"; ""]
  ∧ split "@" "" = [""]
  ∧ logged_cluster "mongodb://user:p@ss@host:27017/db" = "host:27017/db"
  ∧ logged_cluster "mongodb://host:27017" = "mongodb://host:27017".
Proof. vm_compute. done. Qed.



Lemma prepare_comparison_data_head source_hashes dest_hashes :
  prepare_comparison_data source_hashes dest_hashes ≠ [] →
  ∃ r rest, prepare_comparison_data source_hashes dest_hashes = r :: rest
            ∧ Type_ r = "Database".
Proof.
  unfold prepare_comparison_data. rewrite prepare_comparison_data_blocks.
  destruct (db_names elements source_hashes dest_hashes) as [|d l]; [done|].
  intros _. rewrite bind_cons. unfold db_block at 1. simpl. eauto.
Qed.

(** X19. A run that succeeds compared at least one database: its row
    sequence starts with a database row.  When hash collection gives two empty
    inventories the run fails and no report is written, although the summary
    of the empty row sequence would say PASS. *)
Theorem report_never_empty (env : Environment) :
  (run_comparison env = true →
   ∃ r rest, run_rows env = r :: rest ∧ Type_ r = "Database")
  ∧ (∀ source_client dest_client,
       clusters env = Ok (source_client, dest_client) →
       (collect_all_hashes source_client dest_client).1 = ∅ →
       (collect_all_hashes source_client dest_client).2 = ∅ →
       run_comparison env = false
       ∧ run_comparison_saves env = []
       ∧ run_rows env = []
       ∧ overall_status (summary (run_rows env)) = "PASS").
Proof.
  unfold run_comparison, run_comparison_saves, run_rows, connect_to_clusters.
  split.
  - destruct (clusters env) as [[source_client dest_client]|msg]; [|done].
    cbv zeta.
    set (source_hashes := (collect_all_hashes source_client dest_client).1).
    set (dest_hashes := (collect_all_hashes source_client dest_client).2).
    destruct (bool_decide_reflect (source_hashes = ∅)) as [Hs|Hs];
      destruct (bool_decide_reflect (dest_hashes = ∅)) as [Hd|Hd]; simpl;
      try done; intros _; apply prepare_comparison_data_head;
      rewrite prepare_comparison_data_nil_iff; by intros [? ?].
  - intros source_client dest_client -> Hs Hd. cbv zeta.
    rewrite Hs, Hd. done.
Qed.

Lemma contains_char_cons (sep c : ascii) (s : string) :
  contains (String sep "") (String c s)
  = bool_decide (c = sep) || contains (String sep "") s.
Proof.
  simpl. destruct (Ascii.ascii_dec sep c) as [->|Hne].
  - rewrite bool_decide_eq_true_2 by done. by destruct s.
  - rewrite bool_decide_eq_false_2 by congruence. done.
Qed.

Lemma split_nonempty sep s : split sep s ≠ [].
Proof.
  destruct s as [|c s]; simpl; [done|].
  case_bool_decide; [done|]. by destruct (split sep s).
Qed.

(** The last piece of a split is the part of the string after the last
    separator, or the whole string when there is no separator. *)
Lemma split_last (sep : ascii) (s : string) :
  ∃ pre l, last (split sep s) = Some l
    ∧ s = pre +:+ l
    ∧ contains (String sep "") l = false
    ∧ ((pre = "" ∧ split sep s = [l])
       ∨ (∃ p, pre = p +:+ String sep "") ∧ 2 ≤ length (split sep s)).
Proof.
  induction s as [|c s (pre & l & Hlast & Hs & Hno & Hpre)].
  - exists "", "". split; [done|]. split; [done|]. split; [done|]. by left.
  - simpl split. case_bool_decide as Hc.
    + subst c. exists (String sep pre), l. split.
      { destruct (split sep s) as [|x xs] eqn:Hsp; [done|]. done. }
      split; [simpl; by rewrite Hs|]. split; [done|]. right. split.
      * destruct Hpre as [[-> _]|[[p ->] _]]; [by exists ""|].
        by exists (String sep p).
      * pose proof (split_nonempty sep s).
        destruct (split sep s); [done|]. simpl. lia.
    + destruct Hpre as [[-> Hsplit]|[[p ->] Hlen]].
      * rewrite Hsplit. exists "", (String c l).
        split; [done|]. split; [by simpl in Hs; subst s|].
        split; [|by left].
        rewrite (contains_char_cons sep c l), Hno.
        by rewrite bool_decide_eq_false_2.
      * destruct (split sep s) as [|piece [|x pieces]] eqn:Hsp;
          [simpl in Hlen; lia..|].
        exists (String c (p +:+ String sep "")), l.
        split; [exact Hlast|]. split; [simpl; by rewrite Hs|].
        split; [done|]. right. split; [by exists (String c p)|].
        simpl. lia.
Qed.

(** X20. What is logged for a cluster never contains the character [@]: it
    is the connection string itself when that has no [@], and otherwise the
    part after its last [@], so that the user name and the password of the
    connection string are left out. *)
Theorem logged_cluster_redacted (uri : string) :
  contains "@" (logged_cluster uri) = false
  ∧ ∃ pre, uri = pre +:+ logged_cluster uri
           ∧ (pre = "" ∨ ∃ p, pre = p +:+ "@").
Proof.
  unfold logged_cluster.
  destruct (contains "@" uri) eqn:Hat.
  - destruct (split_last "@" uri) as (pre & l & -> & Huri & Hno & Hpre).
    simpl. split; [done|]. exists pre. split; [done|].
    destruct Hpre as [[-> _]|[Hp _]]; by auto.
  - split; [done|]. exists "". by auto.
Qed.

(** ** Further properties of the reconciliation on the object store *)

Lemma read_dict_not_dict (h : Py.heap) (v : Py.val) (lc : Py.loc) :
  (∀ d, ¬ dict_at h v d) → h !! lc = None →
  Py.read_dict v (<[lc := Py.OList []]> h) = None.
Proof.
  intros Hnot Hlc. destruct v as [| | |l]; try done. simpl.
  destruct (decide (l = lc)) as [->|Hne].
  - by rewrite lookup_insert_eq.
  - rewrite lookup_insert_ne by done.
    destruct (h !! l) as [[d|vs]|] eqn:Hl; try done.
    destruct (Hnot d). by exists l.
Qed.

Lemma read_dict_frame (h : Py.heap) (v : Py.val) (lc : Py.loc) d :
  dict_at h v d → h !! lc = None →
  Py.read_dict v (<[lc := Py.OList []]> h)
  = Some (d, <[lc := Py.OList []]> h).
Proof.
  intros Hd Hlc. apply read_dict_at. eapply dict_at_mono; [|exact Hd].
  by apply insert_subseteq.
Qed.

Lemma dict_at_or_not (h : Py.heap) (v : Py.val) :
  (∃ d, dict_at h v d) ∨ (∀ d, ¬ dict_at h v d).
Proof.
  destruct v as [| | |l]; try (right; by intros d (l' & ? & _)).
  destruct (h !! l) as [[d|vs]|] eqn:Hl.
  - left. exists d, l. done.
  - right. intros d (l' & [= <-] & Hl'). congruence.
  - right. intros d (l' & [= <-] & Hl'). congruence.
Qed.

(** X21. When one of the two arguments is not a reference to a dictionary
    object (it is [None], a string, an integer, a reference to a list or a
    dangling reference), the function stops with an error and returns no
    row. *)
Theorem prepare_comparison_data_malformed
    (h : Py.heap) (source_hashes dest_hashes : Py.val) :
  (∀ d, ¬ dict_at h source_hashes d) ∨ (∀ d, ¬ dict_at h dest_hashes d) →
  Py.prepare_comparison_data source_hashes dest_hashes h = None.
Proof.
  intros Hbad. unfold Py.prepare_comparison_data.
  unfold mbind at 1, Py.M_bind at 1, Py.alloc.
  assert (Hlc : h !! fresh (dom h) = None)
    by apply not_elem_of_dom, is_fresh.
  set (lc := fresh (dom h)) in *.
  unfold Py.dict_keys.
  destruct (dict_at_or_not h source_hashes) as [[dS HdS]|HnS].
  - destruct Hbad as [Hbad|Hbad]; [by destruct (Hbad dS)|].
    unfold mbind, Py.M_bind.
    rewrite (read_dict_frame h source_hashes lc dS) by done.
    simpl. by rewrite (read_dict_not_dict h dest_hashes lc).
  - unfold mbind, Py.M_bind.
    by rewrite (read_dict_not_dict h source_hashes lc).
Qed.

(** The arguments [None] and the inventory of scenario C. *)
Lemma prepare_comparison_data_malformed_witness :
  Py.prepare_comparison_data Py.PNone (Py.PRef 0) scenario_C_store = None.
Proof.
  apply prepare_comparison_data_malformed.
  left. intros d (l & Hl & _). discriminate Hl.
Defined.

(** The reference returned by a run is the one created first. *)
Lemma prepare_comparison_data_result (h h' : Py.heap) (vS vD v : Py.val) :
  Py.prepare_comparison_data vS vD h = Some (v, h') →
  v = Py.PRef (fresh (dom h)).
Proof.
  unfold Py.prepare_comparison_data.
  unfold mbind, Py.M_bind, Py.alloc, mret, Py.M_ret.
  repeat (match goal with
          | |- context [match ?m with Some _ => _ | None => _ end] =>
              destruct m as [[? ?]|]; [|done]
          end).
  by intros [= <- _].
Qed.

(** X22. Run on two references that denote inventories, the function
    returns a reference to a list object that did not exist before the call:
    it is different from both arguments, and it holds one reference per row
    of the reconciliation. *)
Theorem prepare_comparison_data_fresh_result
    (h : Py.heap) (vS vD : Py.val) (source_hashes dest_hashes : Inventory) :
  repr_inventory h vS source_hashes →
  repr_inventory h vD dest_hashes →
  ∃ l h' vs,
    Py.prepare_comparison_data vS vD h = Some (Py.PRef l, h')
    ∧ h !! l = None
    ∧ vS ≠ Py.PRef l ∧ vD ≠ Py.PRef l
    ∧ h' !! l = Some (Py.OList vs)
    ∧ length vs
      = length (prepare_comparison_data source_hashes dest_hashes).
Proof.
  intros HS HD.
  destruct (wp_prepare_comparison_data h vS vD _ _ HS HD)
    as (v & h' & Hrun & _ & (l & vs & -> & Hl & Hrows)).
  pose proof (prepare_comparison_data_result _ _ _ _ _ Hrun) as [= ->].
  assert (Hfresh : h !! fresh (dom h) = None)
    by apply not_elem_of_dom, is_fresh.
  exists (fresh (dom h)), h', vs.
  split; [done|]. split; [done|].
  assert (Hne : ∀ v hashes, repr_inventory h v hashes →
                  v ≠ Py.PRef (fresh (dom h))).
  { intros v hashes (d & (l' & -> & Hl') & _) [= ->]. congruence. }
  split; [by eapply Hne|]. split; [by eapply Hne|]. split; [done|].
  by eapply Forall2_length.
Qed.

(** The store of scenario C, with the one inventory as both arguments. *)
Lemma prepare_comparison_data_fresh_result_witness :
  ∃ l h' vs,
    Py.prepare_comparison_data (Py.PRef 0) (Py.PRef 0) scenario_C_store
    = Some (Py.PRef l, h')
    ∧ scenario_C_store !! l = None
    ∧ Py.PRef 0 ≠ Py.PRef l ∧ Py.PRef 0 ≠ Py.PRef l
    ∧ h' !! l = Some (Py.OList vs)
    ∧ length vs = length (prepare_comparison_data scenario_C scenario_C).
Proof.
  apply prepare_comparison_data_fresh_result; apply scenario_C_repr.
Defined.
